(** * py-lambda/app.py: the request handler [lambda_handler]

    A shallow embedding of [src/py-lambda/app.py] together with the parts of
    the Python runtime the handler calls: [dict.get], truth testing,
    [json.loads], [json.dumps], the root logger and [try]/[except].

    Conventions of the embedding.
    - A Python [str] is its sequence of Unicode code points ([pystr]).
    - A Python [int] is a [Z]; a [float] is a binary64 value, written with
      the standard library's [spec_float] (precision 53, [emax] 1024).
    - Events are the values a JSON document denotes in Python: [None],
      [bool], [int], [float], [str], [list] and [dict] with [str] keys.  A
      dict is an association list in insertion order, the order [json.dumps]
      writes it in.
    - [json.loads] and [json.dumps] follow CPython 3.11 with its C
      accelerator ([_json]), which is what [import json] gives; the error
      texts are those of that version.
    - The interpreter is idealised: no recursion limit, no limit on the
      digits of an integer literal, no memory limit.
    - Effects are explicit: a computation takes the records logged so far
      and returns them extended, with a value or a raised exception. *)

From Stdlib Require Import String Ascii.
From Stdlib Require Import List ZArith NArith Bool Lia.
From Stdlib Require Import Floats.SpecFloat.
From Stdlib Require DecimalPos.
Import ListNotations.

Set Implicit Arguments.
Set Warnings "-register-all".

(* ================================================================== *)
(** * Strings *)
(* ================================================================== *)

(** A Python [str]: the list of its code points. *)
Definition pystr : Type := list N.

(** The code points of a literal of this file (all ASCII). *)
Definition str (s : string) : pystr := map N_of_ascii (list_ascii_of_string s).

(** The same, with every apostrophe read as a double quote, to write JSON
    texts and messages that contain double quotes. *)
Definition qstr (s : string) : pystr :=
  map (fun c => if N.eqb c 39 then 34%N else c) (str s).

Fixpoint str_eqb (a b : pystr) : bool :=
  match a, b with
  | [], [] => true
  | x :: a', y :: b' => N.eqb x y && str_eqb a' b'
  | _, _ => false
  end.

(** [''.join(parts)] *)
Definition join (parts : list pystr) : pystr := concat parts.

(** [sep.join(parts)] *)
Fixpoint join_with (sep : pystr) (parts : list pystr) : pystr :=
  match parts with
  | [] => []
  | [p] => p
  | p :: ps => p ++ sep ++ join_with sep ps
  end.

(** [s[i:i+len(lit)] == lit] *)
Fixpoint starts_with (lit s : pystr) : bool :=
  match lit, s with
  | [], _ => true
  | c :: lit', d :: s' => N.eqb c d && starts_with lit' s'
  | _ :: _, [] => false
  end.

Definition QUOTE : N := 34.
Definition BACKSLASH : N := 92.
Definition NEWLINE : N := 10.

Definition is_digit (c : N) : bool := (N.leb 48 c && N.leb c 57)%bool.

(** ** Decimal and hexadecimal numerals *)

Fixpoint uint_digits (d : Decimal.uint) : pystr :=
  match d with
  | Decimal.Nil => []
  | Decimal.D0 d => 48%N :: uint_digits d
  | Decimal.D1 d => 49%N :: uint_digits d
  | Decimal.D2 d => 50%N :: uint_digits d
  | Decimal.D3 d => 51%N :: uint_digits d
  | Decimal.D4 d => 52%N :: uint_digits d
  | Decimal.D5 d => 53%N :: uint_digits d
  | Decimal.D6 d => 54%N :: uint_digits d
  | Decimal.D7 d => 55%N :: uint_digits d
  | Decimal.D8 d => 56%N :: uint_digits d
  | Decimal.D9 d => 57%N :: uint_digits d
  end.

(** [int.__repr__]: also what ['%d'] writes. *)
Definition int_repr (z : Z) : pystr :=
  match Z.to_int z with
  | Decimal.Pos d => uint_digits d
  | Decimal.Neg d => 45%N :: uint_digits d
  end.

(** The value of a run of ASCII decimal digits. *)
Definition digits_value (ds : pystr) : Z :=
  fold_left (fun acc c => (10 * acc + (Z.of_N c - 48))%Z) ds 0%Z.

Definition hex_digit (n : N) : N :=
  if N.ltb n 10 then (48 + n)%N else (87 + n)%N.

(** ['{0:04x}'.format(n)] for [n < 0x10000]. *)
Definition hex4 (n : N) : pystr :=
  [ hex_digit (N.land (N.shiftr n 12) 15); hex_digit (N.land (N.shiftr n 8) 15);
    hex_digit (N.land (N.shiftr n 4) 15);  hex_digit (N.land n 15) ].

(** The value of one hexadecimal digit, as the switch of [scanstring] reads
    it. *)
Definition hex_value (c : N) : option N :=
  if (N.leb 48 c && N.leb c 57)%bool then Some (c - 48)%N
  else if (N.leb 97 c && N.leb c 102)%bool then Some (c - 87)%N
  else if (N.leb 65 c && N.leb c 70)%bool then Some (c - 55)%N
  else None.

(* ================================================================== *)
(** * Floats *)
(* ================================================================== *)

Definition prec : Z := 53.
Definition emax : Z := 1024.

(** [float(text)] for a decimal numeral [digits * 10 ^ exp10] with sign
    [neg]: the binary64 value nearest to it, ties to even, overflow to an
    infinity. *)
Definition float_of_decimal (neg : bool) (digits exp10 : Z) : spec_float :=
  if (digits <=? 0)%Z then S754_zero neg
  else
    let '(m1, m2) :=
      if (0 <=? exp10)%Z then ((digits * 10 ^ exp10)%Z, 1%Z)
      else (digits, (10 ^ (- exp10))%Z) in
    let '(mz, ez, lz) := SFdiv_core_binary prec emax m1 0 m2 0 in
    binary_round_aux prec emax neg mz ez lz.

Definition float_same (x y : spec_float) : bool :=
  match x, y with
  | S754_zero a, S754_zero b => Bool.eqb a b
  | S754_infinity a, S754_infinity b => Bool.eqb a b
  | S754_nan, S754_nan => true
  | S754_finite a m e, S754_finite b m' e' =>
      Bool.eqb a b && Pos.eqb m m' && Z.eqb e e'
  | _, _ => false
  end.

(** A positive rational as numerator and denominator. *)
Definition scale10 (q : Z * Z) (p : Z) : Z * Z :=
  let (a, b) := q in
  if (0 <=? p)%Z then ((a * 10 ^ p)%Z, b) else (a, (b * 10 ^ (- p))%Z).

(** The [k] with [10 ^ (k - 1) <= q < 10 ^ k], from an estimate. *)
Fixpoint decimal_point_from (fuel : nat) (q : Z * Z) (k : Z) : Z :=
  match fuel with
  | O => k
  | S fuel' =>
      let (a, b) := scale10 q (- k) in
      if (b <=? a)%Z then decimal_point_from fuel' q (k + 1)
      else
        let (a', b') := scale10 q (1 - k) in
        if (a' <? b')%Z then decimal_point_from fuel' q (k - 1) else k
  end.

Definition decimal_point (q : Z * Z) : Z :=
  let (a, b) := q in
  decimal_point_from 8 q (((Z.log2 a - Z.log2 b) * 30103) / 100000).

(** The shortest decimal numeral that reads back as [x = m * 2 ^ e], and of
    those the nearest to [x] (ties to the even digit): [(digits, exp10)].
    Numerals of [n], [n + 1], ... significant digits are tried in turn; 17
    always suffice for binary64. *)
Fixpoint shortest_decimal (fuel : nat) (n : Z) (m : positive) (e : Z)
    (q : Z * Z) (k : Z) : Z * Z :=
  let p := (n - k)%Z in
  let (a, b) := scale10 q p in
  let lo := (a / b)%Z in
  let r := (a mod b)%Z in
  let hi := (lo + 1)%Z in
  let nearest :=
    match (2 * r ?= b)%Z with
    | Lt => lo
    | Gt => hi
    | Eq => if Z.even lo then lo else hi
    end in
  match fuel with
  | O => (nearest, (- p)%Z)
  | S fuel' =>
      let x := S754_finite false m e in
      let ok_lo := float_same (float_of_decimal false lo (- p)) x in
      let ok_hi := float_same (float_of_decimal false hi (- p)) x in
      match ok_lo, ok_hi with
      | true, true => (nearest, (- p)%Z)
      | true, false => (lo, (- p)%Z)
      | false, true => (hi, (- p)%Z)
      | false, false => shortest_decimal fuel' (n + 1) m e q k
      end
  end.

Fixpoint strip_zeros (rev_digits : pystr) : pystr :=
  match rev_digits with
  | c :: rest => if N.eqb c 48 then strip_zeros rest else rev_digits
  | [] => []
  end.

Definition zeros (n : Z) : pystr := repeat 48%N (Z.to_nat n).

(** The exponent of the scientific form: a sign and at least two digits. *)
Definition exponent_text (x : Z) : pystr :=
  let ds := int_repr (Z.abs x) in
  (if (x <? 0)%Z then 45%N else 43%N)
    :: (if (Z.abs x <? 10)%Z then 48%N :: ds else ds).

(** [float.__repr__] of a finite non-zero magnitude: format code ['r']. *)
Definition float_repr_finite (m : positive) (e : Z) : pystr :=
  let q := if (0 <=? e)%Z then ((Zpos m * 2 ^ e)%Z, 1%Z)
           else (Zpos m, (2 ^ (- e))%Z) in
  let k := decimal_point q in
  let (d, x10) := shortest_decimal 16 1 m e q k in
  let all := int_repr d in
  let ds := rev (strip_zeros (rev all)) in
  let nd := Z.of_nat (length ds) in
  let decpt := (Z.of_nat (length all) + x10)%Z in
  if ((decpt <=? -4) || (16 <? decpt))%Z%bool then
    match ds with
    | [] => []
    | d0 :: [] => d0 :: 101%N :: exponent_text (decpt - 1)
    | d0 :: more => d0 :: 46%N :: more ++ 101%N :: exponent_text (decpt - 1)
    end
  else if (decpt <=? 0)%Z then
    str "0." ++ zeros (- decpt) ++ ds
  else if (nd <=? decpt)%Z then
    ds ++ zeros (decpt - nd) ++ str ".0"
  else
    firstn (Z.to_nat decpt) ds ++ 46%N :: skipn (Z.to_nat decpt) ds.

(** [float.__repr__] *)
Definition float_repr (x : spec_float) : pystr :=
  match x with
  | S754_zero s => if s then str "-0.0" else str "0.0"
  | S754_infinity s => if s then str "-inf" else str "inf"
  | S754_nan => str "nan"
  | S754_finite s m e =>
      (if s then [45%N] else []) ++ float_repr_finite m e
  end.

(* ================================================================== *)
(** * Values, classes and exceptions *)
(* ================================================================== *)

(** The Python objects a JSON document denotes. *)
Inductive value : Type :=
| VNone
| VBool (b : bool)
| VInt (n : Z)
| VFloat (x : spec_float)
| VStr (s : pystr)
| VList (items : list value)
| VDict (items : list (pystr * value)).

Definition dict : Type := list (pystr * value).

(** [type(v).__name__] *)
Definition type_name (v : value) : pystr :=
  match v with
  | VNone => str "NoneType"
  | VBool _ => str "bool"
  | VInt _ => str "int"
  | VFloat _ => str "float"
  | VStr _ => str "str"
  | VList _ => str "list"
  | VDict _ => str "dict"
  end.

(** [bool(v)], the test of [if v] and [not v]. *)
Definition truthy (v : value) : bool :=
  match v with
  | VNone => false
  | VBool b => b
  | VInt n => negb (n =? 0)%Z
  | VFloat (S754_zero _) => false
  | VFloat _ => true
  | VStr s => match s with [] => false | _ => true end
  | VList l => match l with [] => false | _ => true end
  | VDict d => match d with [] => false | _ => true end
  end.

(** [k in d] and [d[k]] *)
Fixpoint dict_lookup (d : dict) (k : pystr) : option value :=
  match d with
  | [] => None
  | (k', v) :: d' => if str_eqb k' k then Some v else dict_lookup d' k
  end.

(** [d.get(k, default)] *)
Definition dict_get (d : dict) (k : pystr) (default : value) : value :=
  match dict_lookup d k with
  | Some v => v
  | None => default
  end.

(** [d[k] = v]: a key already present keeps its place. *)
Fixpoint dict_set (d : dict) (k : pystr) (v : value) : dict :=
  match d with
  | [] => [(k, v)]
  | (k', v') :: d' =>
      if str_eqb k' k then (k', v) :: d' else (k', v') :: dict_set d' k v
  end.

(** The exception classes in play, with their base classes. *)
Inductive pyclass : Type :=
| BaseException
| Exception
| TypeError
| ValueError
| AttributeError
| RuntimeError
| RecursionError
| JSONDecodeError.

Definition class_base (c : pyclass) : option pyclass :=
  match c with
  | BaseException => None
  | Exception => Some BaseException
  | TypeError => Some Exception
  | ValueError => Some Exception
  | AttributeError => Some Exception
  | RuntimeError => Some Exception
  | RecursionError => Some RuntimeError
  | JSONDecodeError => Some ValueError
  end.

Definition class_eqb (a b : pyclass) : bool :=
  match a, b with
  | BaseException, BaseException | Exception, Exception
  | TypeError, TypeError | ValueError, ValueError
  | AttributeError, AttributeError | RuntimeError, RuntimeError
  | RecursionError, RecursionError | JSONDecodeError, JSONDecodeError => true
  | _, _ => false
  end.

Fixpoint issubclass_upto (depth : nat) (c target : pyclass) : bool :=
  class_eqb c target ||
  match depth with
  | O => false
  | S depth' =>
      match class_base c with
      | Some b => issubclass_upto depth' b target
      | None => false
      end
  end.

(** [issubclass(c, target)]: no chain of bases is longer than four. *)
Definition issubclass (c target : pyclass) : bool := issubclass_upto 4 c target.

(** [c.__name__] *)
Definition class_name (c : pyclass) : pystr :=
  match c with
  | BaseException => str "BaseException"
  | Exception => str "Exception"
  | TypeError => str "TypeError"
  | ValueError => str "ValueError"
  | AttributeError => str "AttributeError"
  | RuntimeError => str "RuntimeError"
  | RecursionError => str "RecursionError"
  | JSONDecodeError => str "JSONDecodeError"
  end.

(** An exception object: [type(e)] and [str(e)]. *)
Record exn : Type := mk_exn { exc_type : pyclass; exc_str : pystr }.

(** The outcome of evaluating an expression or a call. *)
Inductive result (A : Type) : Type :=
| Return (a : A)
| Raise (e : exn).
Arguments Return {A} a.
Arguments Raise {A} e.

(** [obj.get(key, default)]: only a dict has the attribute. *)
Definition dot_get (obj : value) (key : pystr) (default : value) : result value :=
  match obj with
  | VDict d => Return (dict_get d key default)
  | _ =>
      Raise (mk_exn AttributeError
               (str "'" ++ type_name obj ++ str "' object has no attribute 'get'"))
  end.

(* ================================================================== *)
(** * The [json] module *)
(* ================================================================== *)

Definition ch (a : ascii) : N := N_of_ascii a.

(** ** Encoding: [json.dumps] with its default arguments *)

(** [S_CHAR] of [_json.c]: a character written as it is. *)
Definition S_CHAR (c : N) : bool :=
  N.leb 32 c && N.leb c 126 && negb (N.eqb c BACKSLASH) && negb (N.eqb c QUOTE).

(** [ascii_escape_unichar]: the escape of any other character; one beyond
    the basic plane is written as a surrogate pair. *)
Definition ascii_escape_unichar (c : N) : pystr :=
  if N.eqb c BACKSLASH then [BACKSLASH; BACKSLASH]
  else if N.eqb c QUOTE then [BACKSLASH; QUOTE]
  else if N.eqb c 8 then [BACKSLASH; ch "b"]
  else if N.eqb c 12 then [BACKSLASH; ch "f"]
  else if N.eqb c 10 then [BACKSLASH; ch "n"]
  else if N.eqb c 13 then [BACKSLASH; ch "r"]
  else if N.eqb c 9 then [BACKSLASH; ch "t"]
  else if N.leb 65536 c then
    BACKSLASH :: ch "u" :: hex4 (55232 + N.shiftr c 10)
      ++ BACKSLASH :: ch "u" :: hex4 (56320 + N.land c 1023)
  else BACKSLASH :: ch "u" :: hex4 c.

(** [encode_basestring_ascii] *)
Definition encode_basestring_ascii (s : pystr) : pystr :=
  QUOTE :: flat_map (fun c => if S_CHAR c then [c] else ascii_escape_unichar c) s
    ++ [QUOTE].

(** [encoder_encode_float], with [allow_nan] true. *)
Definition floatstr (x : spec_float) : pystr :=
  match x with
  | S754_nan => str "NaN"
  | S754_infinity false => str "Infinity"
  | S754_infinity true => str "-Infinity"
  | _ => float_repr x
  end.

(** The text of a value, items separated by [', '] and a key from its value
    by [': ']. *)
Fixpoint encode (o : value) : pystr :=
  match o with
  | VNone => str "null"
  | VBool true => str "true"
  | VBool false => str "false"
  | VInt n => int_repr n
  | VFloat x => floatstr x
  | VStr s => encode_basestring_ascii s
  | VList items =>
      match items with
      | [] => str "[]"
      | _ => str "[" ++ join_with (str ", ") (map encode items) ++ str "]"
      end
  | VDict items =>
      match items with
      | [] => str "{}"
      | _ =>
          str "{"
            ++ join_with (str ", ")
                 (map (fun kv => encode_basestring_ascii (fst kv) ++ str ": "
                                   ++ encode (snd kv)) items)
            ++ str "}"
      end
  end.

(** [json.dumps(obj)].  It raises only for an object of another type or a
    container that contains itself, and a [value] is neither. *)
Definition json_dumps (obj : value) : pystr := encode obj.

(** ** Decoding: [json.loads] *)

(** What a scanning function gives: a value and the index after it, the
    [StopIteration(idx)] of [scan_once], or a [JSONDecodeError(msg, s, pos)]
    in the making.  [OutOfFuel] is the end of the recursion budget of this
    embedding. *)
Inductive scan_result (A : Type) : Type :=
| Scanned (a : A) (end_ : nat)
| StopIteration (idx : nat)
| DecodeError (msg : pystr) (pos : nat)
| OutOfFuel.
Arguments Scanned {A} a end_.
Arguments StopIteration {A} idx.
Arguments DecodeError {A} msg pos.
Arguments OutOfFuel {A}.

(** [IS_WHITESPACE] *)
Definition is_whitespace (c : N) : bool :=
  N.eqb c 32 || N.eqb c 9 || N.eqb c 10 || N.eqb c 13.

Fixpoint whitespace_len (rest : pystr) : nat :=
  match rest with
  | c :: rest' => if is_whitespace c then S (whitespace_len rest') else O
  | [] => O
  end.

(** [while idx <= end_idx and IS_WHITESPACE(s[idx]): idx++] *)
Definition skip_whitespace (s : pystr) (idx : nat) : nat :=
  idx + whitespace_len (skipn idx s).

(** Four hexadecimal digits. *)
Definition hex4_value (a b c d : N) : option N :=
  match hex_value a, hex_value b, hex_value c, hex_value d with
  | Some x, Some y, Some z, Some w =>
      Some (N.lor (N.shiftl (N.lor (N.shiftl (N.lor (N.shiftl x 4) y) 4) z) 4) w)
  | _, _, _, _ => None
  end.

Definition is_high_surrogate (c : N) : bool := N.leb 55296 c && N.leb c 56319.
Definition is_low_surrogate (c : N) : bool := N.leb 56320 c && N.leb c 57343.

(** [Py_UNICODE_JOIN_SURROGATES] *)
Definition join_surrogates (hi lo : N) : N :=
  (65536 + N.lor (N.shiftl (N.land hi 1023) 10) (N.land lo 1023))%N.

(** The character of a backslash escape other than [u]. *)
Definition backslash_escape (c : N) : option N :=
  if N.eqb c QUOTE then Some QUOTE
  else if N.eqb c BACKSLASH then Some BACKSLASH
  else if N.eqb c (ch "/") then Some (ch "/")
  else if N.eqb c (ch "b") then Some 8%N
  else if N.eqb c (ch "f") then Some 12%N
  else if N.eqb c (ch "n") then Some 10%N
  else if N.eqb c (ch "r") then Some 13%N
  else if N.eqb c (ch "t") then Some 9%N
  else None.

(** [scanstring_unicode], strict: [rest] is the text from index [next] on,
    [begin] the index of the opening quote, [chunks] what was read so far.
    A [\uXXXX] escape is read only when a character follows its four
    digits ([end >= len] is an error), and a second one is taken for the low
    half of a pair only when a character follows that one too. *)
Fixpoint scanstring_from (begin : nat) (rest : pystr) (next : nat)
    (chunks : pystr) {struct rest} : scan_result pystr :=
  match rest with
  | [] => DecodeError (str "Unterminated string starting at") begin
  | c :: rest1 =>
      if N.eqb c QUOTE then Scanned chunks (S next)
      else if N.eqb c BACKSLASH then
        match rest1 with
        | [] => DecodeError (str "Unterminated string starting at") begin
        | esc :: rest2 =>
            if N.eqb esc (ch "u") then
              match rest2 with
              | h1 :: h2 :: h3 :: h4 :: (_ :: _) as rest6 =>
                  match hex4_value h1 h2 h3 h4 with
                  | None => DecodeError (str "Invalid \uXXXX escape") (S next)
                  | Some c1 =>
                      let alone :=
                        scanstring_from begin rest6 (next + 6) (chunks ++ [c1]) in
                      if is_high_surrogate c1 then
                        match rest6 with
                        | b :: u :: g1 :: g2 :: g3 :: g4 :: (_ :: _) as rest12 =>
                            if N.eqb b BACKSLASH && N.eqb u (ch "u") then
                              match hex4_value g1 g2 g3 g4 with
                              | None =>
                                  DecodeError (str "Invalid \uXXXX escape") (next + 7)
                              | Some c2 =>
                                  if is_low_surrogate c2 then
                                    scanstring_from begin rest12 (next + 12)
                                      (chunks ++ [join_surrogates c1 c2])
                                  else alone
                              end
                            else alone
                        | _ => alone
                        end
                      else alone
                  end
              | _ => DecodeError (str "Invalid \uXXXX escape") (S next)
              end
            else
              match backslash_escape esc with
              | Some c' => scanstring_from begin rest2 (next + 2) (chunks ++ [c'])
              | None => DecodeError (str "Invalid \escape") next
              end
        end
      else if N.leb c 31 then
        DecodeError (str "Invalid control character at") next
      else scanstring_from begin rest1 (S next) (chunks ++ [c])
  end.

(** [scanstring(s, end)]: [end] is the index after the opening quote. *)
Definition scanstring (s : pystr) (end_ : nat) : scan_result pystr :=
  scanstring_from (end_ - 1) (skipn end_ s) end_ [].

(** The longest run of decimal digits at the head of a text, and the rest. *)
Fixpoint span_digits (rest : pystr) : pystr * pystr :=
  match rest with
  | c :: rest' =>
      if is_digit c then
        let (ds, r) := span_digits rest' in (c :: ds, r)
      else ([], rest)
  | [] => ([], [])
  end.

(** [_match_number_unicode]: a numeral at index [start], of which [rest] is
    the text; an [int] unless it has a fraction or an exponent. *)
Definition match_number (rest : pystr) (start : nat) : scan_result value :=
  let (neg, rest0) :=
    match rest with
    | c :: r => if N.eqb c (ch "-") then (true, r) else (false, rest)
    | [] => (false, rest)
    end in
  let sign_len := if neg then 1 else 0 in
  match rest0 with
  | [] => StopIteration start
  | c :: rest1 =>
      let integer :=
        if N.eqb c (ch "0") then Some ([c], rest1)
        else if is_digit c then
          let (ds, r) := span_digits rest1 in Some (c :: ds, r)
        else None in
      match integer with
      | None => StopIteration start
      | Some (int_digits, after_int) =>
          let '(frac_digits, after_frac) :=
            match after_int with
            | dot :: d :: _ =>
                if N.eqb dot (ch ".") && is_digit d
                then span_digits (tl after_int)
                else ([], after_int)
            | _ => ([], after_int)
            end in
          let frac_len :=
            match frac_digits with [] => 0 | _ => S (length frac_digits) end in
          let '(exponent, exp_len) :=
            match after_frac with
            | e :: after_e =>
                if N.eqb e (ch "e") || N.eqb e (ch "E") then
                  let '(exp_neg, signed, after_sign) :=
                    match after_e with
                    | sg :: r =>
                        if N.eqb sg (ch "-") then (true, 1, r)
                        else if N.eqb sg (ch "+") then (false, 1, r)
                        else (false, 0, after_e)
                    | [] => (false, 0, after_e)
                    end in
                  match fst (span_digits after_sign) with
                  | [] => (None, 0)
                  | ds =>
                      (Some (if exp_neg then (- digits_value ds)%Z
                             else digits_value ds),
                       1 + signed + length ds)
                  end
                else (None, 0)
            | [] => (None, 0)
            end in
          let end_ := start + sign_len + length int_digits + frac_len + exp_len in
          match frac_digits, exponent with
          | [], None =>
              let n := digits_value int_digits in
              Scanned (VInt (if neg then (- n)%Z else n)) end_
          | _, _ =>
              let x := match exponent with Some x => x | None => 0%Z end in
              Scanned
                (VFloat (float_of_decimal neg
                           (digits_value (int_digits ++ frac_digits))
                           (x - Z.of_nat (length frac_digits))))
                end_
          end
      end
  end.

(** [s[idx]], if there is one. *)
Definition char_at (s : pystr) (idx : nat) : option N := nth_error s idx.

Definition char_is (s : pystr) (idx : nat) (c : N) : bool :=
  match char_at s idx with
  | Some d => N.eqb d c
  | None => false
  end.

(** [scan_once_unicode], [_parse_object_unicode] from its first key on and
    [_parse_array_unicode] from its first item on.  Every call spends one
    unit of [fuel]. *)
Fixpoint scan_once (fuel : nat) (s : pystr) (idx : nat) {struct fuel}
    : scan_result value :=
  match fuel with
  | O => OutOfFuel
  | S fuel' =>
      let rest := skipn idx s in
      match rest with
      | [] => StopIteration idx
      | c :: _ =>
          if N.eqb c QUOTE then
            match scanstring s (idx + 1) with
            | Scanned text end_ => Scanned (VStr text) end_
            | StopIteration i => StopIteration i
            | DecodeError msg pos => DecodeError msg pos
            | OutOfFuel => OutOfFuel
            end
          else if N.eqb c (ch "{") then
            let idx1 := skip_whitespace s (idx + 1) in
            if char_is s idx1 (ch "}") then Scanned (VDict []) (idx1 + 1)
            else parse_object_items fuel' s idx1 []
          else if N.eqb c (ch "[") then
            let idx1 := skip_whitespace s (idx + 1) in
            if char_is s idx1 (ch "]") then Scanned (VList []) (idx1 + 1)
            else parse_array_items fuel' s idx1 []
          else if starts_with (str "null") rest then Scanned VNone (idx + 4)
          else if starts_with (str "true") rest then Scanned (VBool true) (idx + 4)
          else if starts_with (str "false") rest then Scanned (VBool false) (idx + 5)
          else if starts_with (str "NaN") rest then Scanned (VFloat S754_nan) (idx + 3)
          else if starts_with (str "Infinity") rest then
            Scanned (VFloat (S754_infinity false)) (idx + 8)
          else if starts_with (str "-Infinity") rest then
            Scanned (VFloat (S754_infinity true)) (idx + 9)
          else match_number rest idx
      end
  end

with parse_object_items (fuel : nat) (s : pystr) (idx : nat) (pairs : dict)
    {struct fuel} : scan_result value :=
  match fuel with
  | O => OutOfFuel
  | S fuel' =>
      if negb (char_is s idx QUOTE) then
        DecodeError (str "Expecting property name enclosed in double quotes") idx
      else
        match scanstring s (idx + 1) with
        | Scanned key next =>
            let idx2 := skip_whitespace s next in
            if negb (char_is s idx2 (ch ":")) then
              DecodeError (str "Expecting ':' delimiter") idx2
            else
              let idx3 := skip_whitespace s (idx2 + 1) in
              match scan_once fuel' s idx3 with
              | Scanned val next' =>
                  let pairs' := dict_set pairs key val in
                  let idx4 := skip_whitespace s next' in
                  if char_is s idx4 (ch "}") then Scanned (VDict pairs') (idx4 + 1)
                  else if negb (char_is s idx4 (ch ",")) then
                    DecodeError (str "Expecting ',' delimiter") idx4
                  else
                    parse_object_items fuel' s (skip_whitespace s (idx4 + 1)) pairs'
              | StopIteration i => StopIteration i
              | DecodeError msg pos => DecodeError msg pos
              | OutOfFuel => OutOfFuel
              end
        | StopIteration i => StopIteration i
        | DecodeError msg pos => DecodeError msg pos
        | OutOfFuel => OutOfFuel
        end
  end

with parse_array_items (fuel : nat) (s : pystr) (idx : nat) (values : list value)
    {struct fuel} : scan_result value :=
  match fuel with
  | O => OutOfFuel
  | S fuel' =>
      match scan_once fuel' s idx with
      | Scanned val next =>
          let values' := values ++ [val] in
          let idx2 := skip_whitespace s next in
          if char_is s idx2 (ch "]") then Scanned (VList values') (idx2 + 1)
          else if negb (char_is s idx2 (ch ",")) then
            DecodeError (str "Expecting ',' delimiter") idx2
          else parse_array_items fuel' s (skip_whitespace s (idx2 + 1)) values'
      | StopIteration i => StopIteration i
      | DecodeError msg pos => DecodeError msg pos
      | OutOfFuel => OutOfFuel
      end
  end.

(** [doc.count('\n', 0, pos)] and [pos - doc.rfind('\n', 0, pos)], by one
    pass over [doc[:pos]]: the line breaks seen, and the characters since the
    last one. *)
Fixpoint line_and_column (prefix : pystr) (lines column : nat) : nat * nat :=
  match prefix with
  | [] => (lines, column)
  | c :: prefix' =>
      if N.eqb c NEWLINE then line_and_column prefix' (S lines) 1
      else line_and_column prefix' lines (S column)
  end.

(** [JSONDecodeError(msg, doc, pos)]: what [str()] gives for it is
    ['%s: line %d column %d (char %d)']. *)
Definition JSONDecodeError_new (msg doc : pystr) (pos : nat) : exn :=
  let (lineno, colno) := line_and_column (firstn pos doc) 1 1 in
  mk_exn JSONDecodeError
    (msg ++ str ": line " ++ int_repr (Z.of_nat lineno)
         ++ str " column " ++ int_repr (Z.of_nat colno)
         ++ str " (char " ++ int_repr (Z.of_nat pos) ++ str ")").

(** The recursion budget of [decode]: more than any text can use. *)
Definition enough_fuel (s : pystr) : nat := 2 * length s + 2.

(** [JSONDecoder.decode] with [raw_decode] *)
Definition decode (s : pystr) : result value :=
  match scan_once (enough_fuel s) s (skip_whitespace s 0) with
  | Scanned obj end_ =>
      let end' := skip_whitespace s end_ in
      if Nat.eqb end' (length s) then Return obj
      else Raise (JSONDecodeError_new (str "Extra data") s end')
  | StopIteration i => Raise (JSONDecodeError_new (str "Expecting value") s i)
  | DecodeError msg pos => Raise (JSONDecodeError_new msg s pos)
  | OutOfFuel =>
      Raise (mk_exn RecursionError (str "maximum recursion depth exceeded"))
  end.

(** [json.loads(s)]: a [value] is never [bytes] or [bytearray]. *)
Definition json_loads (s : value) : result value :=
  match s with
  | VStr text =>
      if starts_with [65279%N] text then
        Raise (JSONDecodeError_new
                 (str "Unexpected UTF-8 BOM (decode using utf-8-sig)") text 0)
      else decode text
  | _ =>
      Raise (mk_exn TypeError
               (str "the JSON object must be str, bytes or bytearray, not "
                  ++ type_name s))
  end.

(* ================================================================== *)
(** * Effects: the root logger, exceptions *)
(* ================================================================== *)

(** A piece of an f-string: literal text, or [{v}], that is
    [format(v, '')].  The pieces of a message are kept as they are. *)
Inductive fpart : Type :=
| Lit (text : pystr)
| Fmt (v : value).

Definition INFO : Z := 20.
Definition ERROR : Z := 40.

(** What the logger hands to its handlers. *)
Record log_record : Type := mk_record { levelno : Z; msg : list fpart }.

(** The state of the process that the module touches: the level of the root
    logger and the records it has emitted. *)
Record world : Type := mk_world { logger_level : Z; emitted : list log_record }.

(** A computation: from the state before to an outcome and the state
    after. *)
Definition M (A : Type) : Type := world -> result A * world.

Definition ret {A : Type} (a : A) : M A := fun w => (Return a, w).

Definition bind {A B : Type} (c : M A) (k : A -> M B) : M B :=
  fun w =>
    match c w with
    | (Return a, w') => k a w'
    | (Raise e, w') => (Raise e, w')
    end.

(** A call that touches no state. *)
Definition lift {A : Type} (r : result A) : M A := fun w => (r, w).

(** [try: body / except cls as e: handler(e)] *)
Definition try_except {A : Type} (body : M A) (cls : pyclass)
    (handler : exn -> M A) : M A :=
  fun w =>
    match body w with
    | (Return a, w') => (Return a, w')
    | (Raise e, w') =>
        if issubclass (exc_type e) cls then handler e w' else (Raise e, w')
    end.

Declare Scope py_scope.
Delimit Scope py_scope with py.
Notation "x <- c ;; k" := (bind c (fun x => k))
  (at level 61, c at next level, right associativity) : py_scope.
Notation "c ;; k" := (bind c (fun _ => k))
  (at level 61, right associativity) : py_scope.

(** [logger.log(level, message)]: a record is emitted when the level is
    enabled. *)
Definition logger_log (level : Z) (message : list fpart) : M unit :=
  fun w =>
    (Return tt,
     if (logger_level w <=? level)%Z
     then mk_world (logger_level w) (emitted w ++ [mk_record level message])
     else w).

Definition logger_info : list fpart -> M unit := logger_log INFO.
Definition logger_error : list fpart -> M unit := logger_log ERROR.

(** The module's top level: [logger.setLevel(logging.INFO)]. *)
Definition module_init (w : world) : world := mk_world INFO (emitted w).

(* ================================================================== *)
(** * [lambda_handler] *)
(* ================================================================== *)

Definition headers : value :=
  VDict [(str "Content-Type", VStr (str "application/json"))].

(** The dict display of each [return]. *)
Definition response (statusCode : Z) (body : pystr) : value :=
  VDict [(str "statusCode", VInt statusCode);
         (str "headers", headers);
         (str "body", VStr body)].

Definition error_payload : value :=
  VDict [(str "error", VStr (qstr "Missing 'id' or 'name'"))].

Definition success_payload (user_id name : value) : value :=
  VDict [(str "message", VStr (str "User processed successfully by Python Lambda"));
         (str "user", VDict [(str "id", user_id); (str "name", name)]);
         (str "note", VStr (str "Demo response - PostgreSQL database not configured"))].

Definition failure_payload (e : exn) : value :=
  VDict [(str "error", VStr (str "Internal server error"));
         (str "message", VStr (exc_str e));
         (str "type", VStr (class_name (exc_type e)))].

Local Open Scope py_scope.

Definition lambda_handler {C : Type} (event : value) (context : C) : M value :=
  try_except
    (logger_info [Lit (str "Received event: "); Fmt (VStr (json_dumps event))] ;;
     raw <- lift (dot_get event (str "body") (VStr (str "{}"))) ;;
     body <- lift (json_loads raw) ;;
     user_id <- lift (dot_get body (str "id") VNone) ;;
     name <- lift (dot_get body (str "name") VNone) ;;
     if negb (truthy user_id) || negb (truthy name) then
       ret (response 400 (json_dumps error_payload))
     else
       logger_info [Lit (str "Processing user: "); Fmt user_id;
                    Lit (str ", "); Fmt name] ;;
       ret (response 200 (json_dumps (success_payload user_id name))))
    Exception
    (fun e =>
       logger_error [Lit (str "Error: "); Fmt (VStr (exc_str e))] ;;
       ret (response 500 (json_dumps (failure_payload e)))).

Local Close Scope py_scope.

(* ================================================================== *)
(** * Inputs of the concrete scenarios *)
(* ================================================================== *)

(** The state of a process that has just imported the module: the root
    logger starts at [WARNING] (30) and the module sets it to [INFO]. *)
Definition fresh_process : world := module_init (mk_world 30 []).

(** A body with both fields. *)
Definition scenario_A : value :=
  VDict [(str "httpMethod", VStr (str "POST"));
         (str "body", VStr (qstr "{'id': '42', 'name': 'Alice'}"))].

(** A body whose [id] is the empty string. *)
Definition scenario_B : value :=
  VDict [(str "body", VStr (qstr "{'id': '', 'name': 'Bob'}"))].

(** No [body] at all. *)
Definition scenario_C : value :=
  VDict [(str "httpMethod", VStr (str "POST")); (str "path", VStr (str "/users"))].

(** A body that is not JSON. *)
Definition scenario_D : value :=
  VDict [(str "body", VStr (str "not valid json"))].



(** A body whose fields are a boolean and a list holding a number, an object
    and a float. *)
Definition untyped_fields : value :=
  VDict [(str "body", VStr (qstr "{'id': true, 'name': [7, {'k': null}, 1.5]}"))].

(* ================================================================== *)
(** * What the scanners can give *)
(* ================================================================== *)

(** [scanstring] gives a string that ends after [next], or a decode error. *)
Definition string_outcome (next : nat) (r : scan_result pystr) : Prop :=
  match r with
  | Scanned _ e => next < e
  | DecodeError _ _ => True
  | StopIteration _ | OutOfFuel => False
  end.

(** [match_number] gives a number that ends after [start], or stops. *)
Definition number_outcome (start : nat) (r : scan_result value) : Prop :=
  match r with
  | Scanned _ e => start < e
  | StopIteration _ => True
  | DecodeError _ _ | OutOfFuel => False
  end.

(* ================================================================== *)
(** * Further inputs *)
(* ================================================================== *)





(** A body that writes the key [id] twice. *)
Definition repeated_id : value :=
  VDict [(str "body", VStr (qstr "{'id': 1, 'name': 'x', 'id': 2}"))].

(** A process whose root logger was set to [CRITICAL] (50) after the
    import. *)
Definition silenced_process : world := mk_world 50 [].

(* ================================================================== *)
(** * The records of the log *)
(* ================================================================== *)

(** The record of line 10. *)
Definition received (event : value) : log_record :=
  mk_record INFO [Lit (str "Received event: "); Fmt (VStr (json_dumps event))].

(** The record of line 25. *)
Definition processing (user_id name : value) : log_record :=
  mk_record INFO [Lit (str "Processing user: "); Fmt user_id; Lit (str ", "); Fmt name].

(** The record of line 38. *)
Definition failed (e : exn) : log_record :=
  mk_record ERROR [Lit (str "Error: "); Fmt (VStr (exc_str e))].

(* ================================================================== *)
(** * Texts and values that are read back *)
(* ================================================================== *)

(** The printable characters of ASCII. *)
Definition printable (c : N) : bool := N.leb 32 c && N.leb c 126.

Definition ascii_text (s : pystr) : Prop := Forall (fun c => printable c = true) s.

(** A code point of Unicode. *)
Definition is_code_point (c : N) : bool := N.ltb c 1114112.

(** A string of code points in which no high surrogate stands before a low
    one: [json.dumps] writes such a pair as two escapes, which [json.loads]
    joins into one character. *)
Fixpoint plain_text (s : pystr) : bool :=
  match s with
  | [] => true
  | c :: rest =>
      is_code_point c
      && negb (is_high_surrogate c
               && match rest with d :: _ => is_low_surrogate d | [] => false end)
      && plain_text rest
  end.

(** What [encode_basestring_ascii] writes for one character. *)
Definition escape_of (c : N) : pystr :=
  if S_CHAR c then [c] else ascii_escape_unichar c.

(** The text ahead is one that [scanstring], after a high surrogate, takes
    for the escape of a low one, or fails on. *)
Definition low_escape_ahead (rest : pystr) : bool :=
  match rest with
  | b :: u :: g1 :: g2 :: g3 :: g4 :: _ :: _ =>
      N.eqb b BACKSLASH && N.eqb u (ch "u")
      && match hex4_value g1 g2 g3 g4 with
         | Some c2 => is_low_surrogate c2
         | None => true
         end
  | _ => false
  end.

(** What may follow a value in the text [json.dumps] writes: nothing, a
    comma or a closing bracket. *)
Definition ends_value (suf : pystr) : bool :=
  match suf with
  | [] => true
  | c :: _ => N.eqb c (ch ",") || N.eqb c (ch "]") || N.eqb c (ch "}")
  end.

Definition key_in (k : pystr) (d : dict) : bool :=
  existsb (fun kv => str_eqb (fst kv) k) d.

(** No key is written twice. *)
Fixpoint unique_keys (d : dict) : bool :=
  match d with
  | [] => true
  | (k, _) :: d' => negb (key_in k d') && unique_keys d'
  end.

(** The values that [json.loads] reads back from what [json.dumps] writes:
    every string has valid code points and no surrogate pair, no float is
    a finite number other than zero, and no dict repeats a key. *)
Fixpoint plain (v : value) : bool :=
  match v with
  | VNone | VBool _ | VInt _ => true
  | VFloat (S754_finite _ _ _) => false
  | VFloat _ => true
  | VStr s => plain_text s
  | VList items => forallb plain items
  | VDict items =>
      unique_keys items
      && forallb (fun kv => plain_text (fst kv) && plain (snd kv)) items
  end.

(** No dict of the value repeats a key. *)
Fixpoint no_repeated_key (v : value) : bool :=
  match v with
  | VList items => forallb no_repeated_key items
  | VDict items =>
      unique_keys items && forallb (fun kv => no_repeated_key (snd kv)) items
  | _ => true
  end.

(** The characters a value can start with in the text [json.dumps] writes. *)
Definition starts_value (c : N) : bool :=
  is_digit c || existsb (N.eqb c) (QUOTE :: str "-ntfNI[{").

(** [json.loads] reads [v] back wherever [json.dumps] wrote it: from a
    cursor at the text of [v], with enough fuel, [scan_once] gives [v] and
    the index after the text. *)
Definition reads_back (v : value) : Prop :=
  forall (s : pystr) (idx : nat) (suf : pystr),
    skipn idx s = encode v ++ suf ->
    ends_value suf = true ->
    exists n, forall fuel, n <= fuel ->
      scan_once fuel s idx = Scanned v (idx + length (encode v)).

(** One item of a dict, as [json.dumps] writes it. *)
Definition item_text (kv : pystr * value) : pystr :=
  encode_basestring_ascii (fst kv) ++ str ": " ++ encode (snd kv).

(** The messages of the errors of [json.loads] on a [str]. *)
Definition decode_messages : list pystr :=
  [str "Unterminated string starting at";
   str "Invalid \uXXXX escape";
   str "Invalid \escape";
   str "Invalid control character at";
   str "Expecting property name enclosed in double quotes";
   str "Expecting ':' delimiter";
   str "Expecting ',' delimiter";
   str "Expecting value";
   str "Extra data";
   str "Unexpected UTF-8 BOM (decode using utf-8-sig)"].

(* ================================================================== *)
(** * Proofs *)
(* ================================================================== *)

(** Case analysis on the scrutinee of a [match] or an [if] of the goal. *)
Ltac break_goal :=
  match goal with
  | |- context [match ?x with _ => _ end] =>
      let E := fresh "E" in destruct x eqn:E
  end.

(** The exception a call raised, read off the equation that defines it. *)
Ltac raised H := inversion H; subst; clear H.

(** ** Truth testing and dict access *)

(** The falsy values are [None], [False], zero, the empty string, the empty
    list and the empty dict. *)
Lemma truthy_false (v : value) :
  truthy v = false <->
  v = VNone \/ v = VBool false \/ v = VInt 0 \/
  (exists s, v = VFloat (S754_zero s)) \/
  v = VStr [] \/ v = VList [] \/ v = VDict [].
Proof.
  split.
  - destruct v as [|b|n|x|s|l|d]; simpl; intros H.
    + auto.
    + subst. auto.
    + apply negb_false_iff, Z.eqb_eq in H. subst. auto.
    + destruct x; try discriminate. right; right; right; left. eauto.
    + destruct s; [auto 10 | discriminate].
    + destruct l; [auto 10 | discriminate].
    + destruct d; [auto 10 | discriminate].
  - intros [H|[H|[H|[[s H]|[H|[H|H]]]]]]; subst; reflexivity.
Qed.



Lemma dot_get_raises (obj : value) (key : pystr) (default : value) (e : exn) :
  dot_get obj key default = Raise e -> exc_type e = AttributeError.
Proof. destruct obj; unfold dot_get; intros H; raised H; reflexivity. Qed.

(** ** The decoder always answers, and only with [JSONDecodeError] *)

Section Scanner.

Variable s : pystr.

Lemma skip_whitespace_ge (idx : nat) : idx <= skip_whitespace s idx.
Proof. unfold skip_whitespace. lia. Qed.

Lemma char_is_lt (idx : nat) (c : N) : char_is s idx c = true -> idx < length s.
Proof.
  unfold char_is, char_at. destruct (nth_error s idx) eqn:E; [|discriminate].
  intros _. apply nth_error_Some. congruence.
Qed.

Lemma skipn_cons_lt (idx : nat) (c : N) (rest : pystr) :
  skipn idx s = c :: rest -> idx < length s.
Proof.
  intros H. destruct (Nat.lt_ge_cases idx (length s)) as [|Hge]; [assumption|].
  rewrite skipn_all2 in H by assumption. discriminate.
Qed.

(** By induction on a bound of the text left: an escape takes two, six or
    twelve characters at once. *)
Lemma scanstring_from_outcome (n : nat) :
  forall (rest : pystr) (begin next : nat) (chunks : pystr),
    length rest <= n ->
    string_outcome next (scanstring_from begin rest next chunks).
Proof.
  induction n as [|n IH]; intros rest begin next chunks Hlen.
  - destruct rest; [exact I | simpl in Hlen; lia].
  - assert (Hk : forall r b k c, length r <= n ->
                 forall m, m <= k -> string_outcome m (scanstring_from b r k c)).
    { intros r b k c Hr m Hm. specialize (IH r b k c Hr).
      destruct (scanstring_from b r k c); simpl in *; auto; lia. }
    destruct rest as [|c rest1]; [exact I|].
    cbn [scanstring_from]. simpl in Hlen.
    repeat first
      [ exact I
      | progress (simpl string_outcome); lia
      | apply Hk; [simpl in *; lia | lia]
      | break_goal; simpl in Hlen ].
Qed.

Lemma scanstring_outcome (end_ : nat) : string_outcome end_ (scanstring s end_).
Proof.
  unfold scanstring.
  apply scanstring_from_outcome with (n := length (skipn end_ s)). lia.
Qed.

Lemma match_number_outcome (rest : pystr) (start : nat) :
  number_outcome start (match_number rest start).
Proof.
  unfold match_number.
  repeat first
    [ exact I
    | progress (simpl number_outcome; simpl length); lia
    | break_goal ];
  try discriminate.
  all: repeat match goal with
       | H : Some _ = Some _ |- _ => inversion H; subst; clear H
       | H : (_, _) = (_, _) |- _ => inversion H; subst; clear H
       end.
  all: simpl; try lia.
  all: match goal with
       | H : (if ?a then _ else _) = Some _ |- _ =>
           destruct a;
           [ inversion H; subst
           | destruct (is_digit _);
             [ destruct (span_digits _); inversion H; subst | discriminate ] ]
       end; simpl; lia.
Qed.

(** Every scanned value ends after the index it starts at. *)
Lemma scan_progress (fuel : nat) :
  (forall idx v e, scan_once fuel s idx = Scanned v e -> idx < e) /\
  (forall idx acc v e,
     parse_object_items fuel s idx acc = Scanned v e -> idx < e) /\
  (forall idx acc v e,
     parse_array_items fuel s idx acc = Scanned v e -> idx < e).
Proof.
  induction fuel as [|fuel (IHs & IHo & IHa)].
  - repeat split; intros; discriminate.
  - repeat split.
    + intros idx v e. cbn [scan_once].
      destruct (skipn idx s) as [|c rest1] eqn:Hrest; [discriminate|].
      destruct (N.eqb c QUOTE).
      { pose proof (scanstring_outcome (idx + 1)) as Hs.
        destruct (scanstring s (idx + 1)); try discriminate.
        intros H; raised H. simpl in Hs. lia. }
      destruct (N.eqb c (ch "{")).
      { pose proof (skip_whitespace_ge (idx + 1)).
        destruct (char_is s (skip_whitespace s (idx + 1)) (ch "}")).
        - intros H'; raised H'. lia.
        - intros H'. apply IHo in H'. lia. }
      destruct (N.eqb c (ch "[")).
      { pose proof (skip_whitespace_ge (idx + 1)).
        destruct (char_is s (skip_whitespace s (idx + 1)) (ch "]")).
        - intros H'; raised H'. lia.
        - intros H'. apply IHa in H'. lia. }
      repeat (break_goal; [intros H'; raised H'; lia|]).
      pose proof (match_number_outcome (c :: rest1) idx) as Hn.
      destruct (match_number (c :: rest1) idx); try discriminate.
      intros H'; raised H'. exact Hn.
    + intros idx acc v e. cbn [parse_object_items].
      destruct (negb (char_is s idx QUOTE)); [discriminate|].
      pose proof (scanstring_outcome (idx + 1)) as Hs.
      destruct (scanstring s (idx + 1)) as [key next| | |]; try discriminate.
      simpl in Hs.
      pose proof (skip_whitespace_ge next).
      destruct (negb (char_is s (skip_whitespace s next) (ch ":")));
        [discriminate|].
      pose proof (skip_whitespace_ge (skip_whitespace s next + 1)).
      destruct (scan_once fuel s (skip_whitespace s (skip_whitespace s next + 1)))
        as [val next'| | |] eqn:Hv; try discriminate.
      apply IHs in Hv.
      pose proof (skip_whitespace_ge next').
      destruct (char_is s (skip_whitespace s next') (ch "}")).
      { intros H'; raised H'. lia. }
      destruct (negb (char_is s (skip_whitespace s next') (ch ",")));
        [discriminate|].
      pose proof (skip_whitespace_ge (skip_whitespace s next' + 1)).
      intros H'. apply IHo in H'. lia.
    + intros idx acc v e. cbn [parse_array_items].
      destruct (scan_once fuel s idx) as [val next| | |] eqn:Hv; try discriminate.
      apply IHs in Hv.
      pose proof (skip_whitespace_ge next).
      destruct (char_is s (skip_whitespace s next) (ch "]")).
      { intros H'; raised H'. lia. }
      destruct (negb (char_is s (skip_whitespace s next) (ch ",")));
        [discriminate|].
      pose proof (skip_whitespace_ge (skip_whitespace s next + 1)).
      intros H'. apply IHa in H'. lia.
Qed.

(** The budget is never spent: a call at [idx] needs at most twice the
    characters from [idx] on, and one or two more. *)
Lemma scan_fuel (fuel : nat) :
  (forall idx, 2 * (length s - idx) + 1 <= fuel ->
     scan_once fuel s idx <> OutOfFuel) /\
  (forall idx acc, 2 * (length s - idx) + 2 <= fuel ->
     parse_object_items fuel s idx acc <> OutOfFuel) /\
  (forall idx acc, 2 * (length s - idx) + 2 <= fuel ->
     parse_array_items fuel s idx acc <> OutOfFuel).
Proof.
  induction fuel as [|fuel (IHs & IHo & IHa)].
  - repeat split; intros; lia.
  - destruct (scan_progress fuel) as (Ps & Po & Pa).
    repeat split.
    + intros idx Hf. cbn [scan_once].
      destruct (skipn idx s) as [|c rest1] eqn:Hrest; [discriminate|].
      apply skipn_cons_lt in Hrest as Hlt.
      destruct (N.eqb c QUOTE).
      { pose proof (scanstring_outcome (idx + 1)) as Hs.
        destruct (scanstring s (idx + 1)); try discriminate. contradiction. }
      destruct (N.eqb c (ch "{")).
      { pose proof (skip_whitespace_ge (idx + 1)).
        destruct (char_is s (skip_whitespace s (idx + 1)) (ch "}"));
          [discriminate|].
        apply IHo. lia. }
      destruct (N.eqb c (ch "[")).
      { pose proof (skip_whitespace_ge (idx + 1)).
        destruct (char_is s (skip_whitespace s (idx + 1)) (ch "]"));
          [discriminate|].
        apply IHa. lia. }
      repeat (break_goal; [discriminate|]).
      pose proof (match_number_outcome (c :: rest1) idx) as Hn.
      destruct (match_number (c :: rest1) idx); try discriminate. contradiction.
    + intros idx acc Hf. cbn [parse_object_items].
      destruct (char_is s idx QUOTE) eqn:Hq; [|discriminate].
      apply char_is_lt in Hq. cbn [negb].
      pose proof (scanstring_outcome (idx + 1)) as Hs.
      destruct (scanstring s (idx + 1)) as [key next| | |]; try discriminate;
        [|contradiction].
      simpl in Hs.
      pose proof (skip_whitespace_ge next).
      destruct (negb (char_is s (skip_whitespace s next) (ch ":")));
        [discriminate|].
      pose proof (skip_whitespace_ge (skip_whitespace s next + 1)).
      destruct (scan_once fuel s (skip_whitespace s (skip_whitespace s next + 1)))
        as [val next'| | |] eqn:Hv; try discriminate.
      * apply Ps in Hv.
        pose proof (skip_whitespace_ge next').
        destruct (char_is s (skip_whitespace s next') (ch "}")); [discriminate|].
        destruct (negb (char_is s (skip_whitespace s next') (ch ",")));
          [discriminate|].
        pose proof (skip_whitespace_ge (skip_whitespace s next' + 1)).
        apply IHo. lia.
      * intros _. revert Hv. apply IHs. lia.
    + intros idx acc Hf. cbn [parse_array_items].
      destruct (scan_once fuel s idx) as [val next| | |] eqn:Hv; try discriminate.
      * apply Ps in Hv.
        pose proof (skip_whitespace_ge next).
        destruct (char_is s (skip_whitespace s next) (ch "]")); [discriminate|].
        destruct (char_is s (skip_whitespace s next) (ch ",")) eqn:Hc;
          [|discriminate].
        apply char_is_lt in Hc. cbn [negb].
        pose proof (skip_whitespace_ge (skip_whitespace s next + 1)).
        apply IHa. lia.
      * intros _. revert Hv. apply IHs. lia.
Qed.

Lemma JSONDecodeError_new_type (msg : pystr) (pos : nat) :
  exc_type (JSONDecodeError_new msg s pos) = JSONDecodeError.
Proof.
  unfold JSONDecodeError_new. destruct (line_and_column _ _ _). reflexivity.
Qed.

Lemma decode_raises (e : exn) :
  decode s = Raise e -> exc_type e = JSONDecodeError.
Proof.
  unfold decode.
  destruct (scan_fuel (enough_fuel s)) as (Hs & _).
  specialize (Hs (skip_whitespace s 0)).
  destruct (scan_once (enough_fuel s) s (skip_whitespace s 0)).
  - destruct (Nat.eqb _ _); [discriminate|].
    intros H; raised H. apply JSONDecodeError_new_type.
  - intros H; raised H. apply JSONDecodeError_new_type.
  - intros H; raised H. apply JSONDecodeError_new_type.
  - exfalso. apply Hs; [unfold enough_fuel; lia | reflexivity].
Qed.

End Scanner.

(** [json.loads] raises [JSONDecodeError] on a [str] and [TypeError] on
    anything else. *)
Lemma json_loads_raises (s : value) (e : exn) :
  json_loads s = Raise e ->
  exc_type e = match s with VStr _ => JSONDecodeError | _ => TypeError end.
Proof.
  destruct s; unfold json_loads; try (intros H; raised H; reflexivity).
  destruct (starts_with _ _).
  - intros H; raised H. apply JSONDecodeError_new_type.
  - apply decode_raises.
Qed.

(** ** The handler, call by call *)

Lemma json_loads_raises_Exception (s : value) (e : exn) :
  json_loads s = Raise e -> issubclass (exc_type e) Exception = true.
Proof.
  intros H. apply json_loads_raises in H. rewrite H. destruct s; reflexivity.
Qed.

Lemma dot_get_raises_Exception (obj : value) (key : pystr) (default : value)
    (e : exn) :
  dot_get obj key default = Raise e -> issubclass (exc_type e) Exception = true.
Proof. intros H. apply dot_get_raises in H. rewrite H. reflexivity. Qed.

(** The value [lambda_handler] returns: every exception of the [try] block
    is an [Exception], so the [except] clause takes it. *)
Lemma lambda_handler_outcome (C : Type) (event : value) (context : C) (w : world) :
  fst (lambda_handler event context w) =
  Return
    match dot_get event (str "body") (VStr (str "{}")) with
    | Raise e => response 500 (json_dumps (failure_payload e))
    | Return raw =>
        match json_loads raw with
        | Raise e => response 500 (json_dumps (failure_payload e))
        | Return body =>
            match dot_get body (str "id") VNone with
            | Raise e => response 500 (json_dumps (failure_payload e))
            | Return user_id =>
                match dot_get body (str "name") VNone with
                | Raise e => response 500 (json_dumps (failure_payload e))
                | Return name =>
                    if negb (truthy user_id) || negb (truthy name)
                    then response 400 (json_dumps error_payload)
                    else response 200 (json_dumps (success_payload user_id name))
                end
            end
        end
    end.
Proof.
  unfold lambda_handler, try_except, bind, lift, logger_info, logger_error,
    logger_log, ret.
  destruct (dot_get event (str "body") (VStr (str "{}"))) as [raw|e] eqn:E1.
  2:{ apply dot_get_raises_Exception in E1. rewrite E1. reflexivity. }
  destruct (json_loads raw) as [body|e] eqn:E2.
  2:{ apply json_loads_raises_Exception in E2. rewrite E2. reflexivity. }
  destruct (dot_get body (str "id") VNone) as [user_id|e] eqn:E3.
  2:{ apply dot_get_raises_Exception in E3. rewrite E3. reflexivity. }
  destruct (dot_get body (str "name") VNone) as [name|e] eqn:E4.
  2:{ apply dot_get_raises_Exception in E4. rewrite E4. reflexivity. }
  destruct (negb (truthy user_id) || negb (truthy name)); reflexivity.
Qed.




(** An event that is not a mapping has no [get]: the answer is the 500 of an
    [AttributeError] that names the type of the event. *)
Lemma handler_not_a_mapping (C : Type) (context : C) (w : world) (event : value) :
  (forall d, event <> VDict d) ->
  fst (lambda_handler event context w) =
  Return
    (response 500
       (json_dumps
          (failure_payload
             (mk_exn AttributeError
                (str "'" ++ type_name event
                   ++ str "' object has no attribute 'get'"))))).
Proof.
  intros Hd. rewrite lambda_handler_outcome.
  destruct event; try reflexivity. exfalso. exact (Hd _ eq_refl).
Qed.

(** With [INFO] enabled, the first record of an invocation is the event as
    [json.dumps] writes it: the only place where the rest of the event
    shows. *)
Lemma handler_logs_event (C : Type) (context : C) (w : world) (event : value) :
  (logger_level w <= INFO)%Z ->
  exists more,
    emitted (snd (lambda_handler event context w)) =
    emitted w
      ++ mk_record INFO [Lit (str "Received event: "); Fmt (VStr (json_dumps event))]
      :: more.
Proof.
  intros Hlevel. apply Z.leb_le in Hlevel.
  unfold lambda_handler, try_except, bind, lift, logger_info, logger_error,
    logger_log, ret.
  rewrite Hlevel. cbn [logger_level emitted].
  destruct (dot_get event (str "body") (VStr (str "{}"))) as [raw|e];
    [destruct (json_loads raw) as [body|e];
     [destruct (dot_get body (str "id") VNone) as [user_id|e];
      [destruct (dot_get body (str "name") VNone) as [name|e];
       [destruct (negb (truthy user_id) || negb (truthy name))|]|]|]|].
  all: try destruct (issubclass (exc_type e) Exception).
  all: cbn [fst snd logger_level emitted].
  all: repeat match goal with
       | |- context [if ?b then _ else _] => destruct b
       end.
  all: cbn [fst snd logger_level emitted]; rewrite <- ?app_assoc;
    eexists; cbn [app]; reflexivity.
Qed.

(** ** The scenarios of the specification, evaluated *)

Example scenario_A_response :
  fst (lambda_handler scenario_A tt fresh_process) =
  Return
    (response 200
       (qstr "{'message': 'User processed successfully by Python Lambda', 'user': {'id': '42', 'name': 'Alice'}, 'note': 'Demo response - PostgreSQL database not configured'}")).
Proof. vm_compute. reflexivity. Qed.

Example scenario_B_response :
  fst (lambda_handler scenario_B tt fresh_process) =
  Return (response 400 (qstr "{'error': 'Missing \'id\' or \'name\''}")).
Proof. vm_compute. reflexivity. Qed.

Example scenario_C_response :
  fst (lambda_handler scenario_C tt fresh_process) =
  Return (response 400 (qstr "{'error': 'Missing \'id\' or \'name\''}")).
Proof. vm_compute. reflexivity. Qed.

Example scenario_D_response :
  fst (lambda_handler scenario_D tt fresh_process) =
  Return
    (response 500
       (qstr "{'error': 'Internal server error', 'message': 'Expecting value: line 1 column 1 (char 0)', 'type': 'JSONDecodeError'}")).
Proof. vm_compute. reflexivity. Qed.

Example untyped_fields_response :
  fst (lambda_handler untyped_fields tt fresh_process) =
  Return
    (response 200
       (qstr "{'message': 'User processed successfully by Python Lambda', 'user': {'id': true, 'name': [7, {'k': null}, 1.5]}, 'note': 'Demo response - PostgreSQL database not configured'}")).
Proof. vm_compute. reflexivity. Qed.

(** The decoder reads the three constants that are not in the JSON grammar
    of RFC 8259, as CPython does. *)
Example constants_are_read :
  json_loads (VStr (str "[NaN, Infinity, -Infinity]")) =
  Return (VList [VFloat S754_nan; VFloat (S754_infinity false);
                 VFloat (S754_infinity true)]).
Proof. vm_compute. reflexivity. Qed.

(** A later occurrence of a key replaces the value and keeps the place. *)
Example duplicate_keys :
  json_loads (VStr (qstr "{'id': 1, 'name': 'x', 'id': 0}")) =
  Return (VDict [(str "id", VInt 0); (str "name", VStr (str "x"))]).
Proof. vm_compute. reflexivity. Qed.

Example error_position_counts_lines :
  json_loads (VStr (str "{" ++ [NEWLINE] ++ qstr "  'id': 1," ++ [NEWLINE]
                      ++ str "}")) =
  Raise (mk_exn JSONDecodeError
           (str "Expecting property name enclosed in double quotes: line 3 column 1 (char 13)")).
Proof. vm_compute. reflexivity. Qed.

(* ================================================================== *)
(** * The claims *)
(* ================================================================== *)





(** C3.  For every event, [lambda_handler] raises nothing: whatever is
    raised while it runs is caught, and the invocation returns a response
    object with a status code, the headers and a body. *)
Theorem C3_never_raises (C : Type) (event : value) (context : C) (w : world) :
  exists (statusCode : Z) (body : pystr),
    fst (lambda_handler event context w) =
    Return
      (VDict
         [(str "statusCode", VInt statusCode);
          (str "headers",
           VDict [(str "Content-Type", VStr (str "application/json"))]);
          (str "body", VStr body)]).
Proof.
  rewrite lambda_handler_outcome.
  repeat break_goal; eexists; eexists; reflexivity.
Qed.





(** C6.  For every event, the response of [lambda_handler] has a status
    code that is 200, 400 or 500, headers that are exactly
    [{"Content-Type": "application/json"}], and a body that is the
    serialization of some JSON value, on every exit path. *)
Theorem C6_response_envelope (C : Type) (event : value) (context : C) (w : world) :
  exists (statusCode : Z) (payload : value),
    fst (lambda_handler event context w) =
    Return
      (VDict
         [(str "statusCode", VInt statusCode);
          (str "headers",
           VDict [(str "Content-Type", VStr (str "application/json"))]);
          (str "body", VStr (json_dumps payload))]) /\
    (statusCode = 200 \/ statusCode = 400 \/ statusCode = 500)%Z.
Proof.
  rewrite lambda_handler_outcome.
  repeat break_goal; eexists; eexists; (split; [reflexivity | auto]).
Qed.

(** C7.  [lambda_handler] is deterministic: the response to an event is the
    same whatever the context object and whatever state earlier invocations
    left behind (the level of the logger, the records emitted), and in
    particular a second invocation with the same event, run in the state the
    first one left, returns the same response. *)
Theorem C7_deterministic (C C' : Type) (event : value) (context : C)
    (context' : C') (w w' : world) :
  fst (lambda_handler event context w) = fst (lambda_handler event context' w') /\
  fst (lambda_handler event context' (snd (lambda_handler event context w))) =
  fst (lambda_handler event context w).
Proof. rewrite !lambda_handler_outcome. split; reflexivity. Qed.







(* ================================================================== *)
(** * Further properties of the handler *)
(* ================================================================== *)

(** ** The response tells the path taken *)

Lemma response_inj (s s' : Z) (b b' : pystr) :
  Return (response s b) = Return (response s' b') -> s = s' /\ b = b'.
Proof. intros H. inversion H. split; reflexivity. Qed.







Lemma truthy_get (d : dict) (k : pystr) :
  truthy (dict_get d k VNone) = true ->
  exists v, dict_lookup d k = Some v /\ truthy v = true.
Proof.
  unfold dict_get. destruct (dict_lookup d k) as [v|]; [eauto | discriminate].
Qed.

Lemma falsy_get (d : dict) (k : pystr) :
  truthy (dict_get d k VNone) = false ->
  dict_lookup d k = None \/ exists v, dict_lookup d k = Some v /\ truthy v = false.
Proof.
  unfold dict_get. destruct (dict_lookup d k) as [v|]; [eauto | auto].
Qed.

(** X4.  Status 200 is given only to a mapping event whose [body] is a text
    that decodes to a mapping with a truthy [id] and a truthy [name], and the
    body of the response is then the serialization of the success payload
    for these two values. *)
Theorem X4_only_valid_payloads_get_200 (C : Type) (context : C) (w : world)
    (event : value) (body : pystr) :
  fst (lambda_handler event context w) = Return (response 200 body) ->
  exists (fields payload : dict) (text : pystr) (user_id name : value),
    event = VDict fields /\
    dict_lookup fields (str "body") = Some (VStr text) /\
    json_loads (VStr text) = Return (VDict payload) /\
    dict_lookup payload (str "id") = Some user_id /\
    dict_lookup payload (str "name") = Some name /\
    truthy user_id = true /\ truthy name = true /\
    body = json_dumps (success_payload user_id name).
Proof.
  rewrite lambda_handler_outcome.
  destruct event as [| | | | |?|fields]; try (intros H; apply response_inj in H; destruct H; discriminate).
  unfold dot_get at 1. unfold dict_get.
  destruct (dict_lookup fields (str "body")) as [raw|] eqn:Hb.
  - destruct (json_loads raw) as [decoded|e] eqn:Hl;
      [|intros H; apply response_inj in H; destruct H; discriminate].
    destruct decoded as [| | | | |?|payload];
      try (intros H; apply response_inj in H; destruct H; discriminate).
    unfold dot_get.
    destruct (truthy (dict_get payload (str "id") VNone)) eqn:Ti;
      [|intros H; apply response_inj in H; destruct H; discriminate].
    destruct (truthy (dict_get payload (str "name") VNone)) eqn:Tn;
      [|intros H; apply response_inj in H; destruct H; discriminate].
    cbn [negb orb]. intros H. apply response_inj in H. destruct H as [_ H].
    apply truthy_get in Ti. destruct Ti as (user_id & Hi & Ti).
    apply truthy_get in Tn. destruct Tn as (name & Hn & Tn).
    destruct raw as [| | | |text| |];
      try (apply json_loads_raises in Hl || (unfold json_loads in Hl; discriminate)).
    exists fields, payload, text, user_id, name.
    unfold dict_get in H. rewrite Hi, Hn in H. auto 10.
  - replace (json_loads (VStr (str "{}"))) with (Return (A:=value) (VDict []))
      by (vm_compute; reflexivity).
    cbn. intros H. apply response_inj in H. destruct H; discriminate.
Qed.

Lemma X4_only_valid_payloads_get_200_witness :
  exists (fields payload : dict) (text : pystr) (user_id name : value),
    scenario_A = VDict fields /\
    dict_lookup fields (str "body") = Some (VStr text) /\
    json_loads (VStr text) = Return (VDict payload) /\
    dict_lookup payload (str "id") = Some user_id /\
    dict_lookup payload (str "name") = Some name /\
    truthy user_id = true /\ truthy name = true /\
    json_dumps (success_payload (VStr (str "42")) (VStr (str "Alice")))
    = json_dumps (success_payload user_id name).
Proof.
  apply (@X4_only_valid_payloads_get_200 unit tt fresh_process scenario_A
           (json_dumps (success_payload (VStr (str "42")) (VStr (str "Alice"))))).
  vm_compute; reflexivity.
Defined.

(** X5.  Status 400 is given only to a mapping event whose body (or [{}] when
    there is none) decodes to a mapping in which [id] or [name] is missing
    or falsy, and the body of the response is then the fixed error object. *)
Theorem X5_only_invalid_payloads_get_400 (C : Type) (context : C) (w : world)
    (event : value) (body : pystr) :
  fst (lambda_handler event context w) = Return (response 400 body) ->
  exists (fields payload : dict) (raw : value),
    event = VDict fields /\
    dict_get fields (str "body") (VStr (str "{}")) = raw /\
    json_loads raw = Return (VDict payload) /\
    (dict_lookup payload (str "id") = None \/
     dict_lookup payload (str "name") = None \/
     (exists v, dict_lookup payload (str "id") = Some v /\ truthy v = false) \/
     (exists v, dict_lookup payload (str "name") = Some v /\ truthy v = false)) /\
    body = json_dumps error_payload.
Proof.
  rewrite lambda_handler_outcome.
  destruct event as [| | | | |?|fields];
    try (intros H; apply response_inj in H; destruct H; discriminate).
  unfold dot_get at 1.
  destruct (json_loads (dict_get fields (str "body") (VStr (str "{}"))))
    as [decoded|e] eqn:Hl;
    [|intros H; apply response_inj in H; destruct H; discriminate].
  destruct decoded as [| | | | |?|payload];
    try (intros H; apply response_inj in H; destruct H; discriminate).
  unfold dot_get.
  destruct (truthy (dict_get payload (str "id") VNone)) eqn:Ti;
    [destruct (truthy (dict_get payload (str "name") VNone)) eqn:Tn|];
    cbn [negb orb]; intros H; apply response_inj in H; destruct H as [H1 H2];
    try discriminate.
  - apply falsy_get in Tn.
    exists fields, payload, (dict_get fields (str "body") (VStr (str "{}"))).
    repeat split; auto. destruct Tn; auto.
  - apply falsy_get in Ti.
    exists fields, payload, (dict_get fields (str "body") (VStr (str "{}"))).
    repeat split; auto. destruct Ti; auto.
Qed.

Lemma X5_only_invalid_payloads_get_400_witness :
  exists (fields payload : dict) (raw : value),
    scenario_B = VDict fields /\
    dict_get fields (str "body") (VStr (str "{}")) = raw /\
    json_loads raw = Return (VDict payload) /\
    (dict_lookup payload (str "id") = None \/
     dict_lookup payload (str "name") = None \/
     (exists v, dict_lookup payload (str "id") = Some v /\ truthy v = false) \/
     (exists v, dict_lookup payload (str "name") = Some v /\ truthy v = false)) /\
    json_dumps error_payload = json_dumps error_payload.
Proof.
  apply (@X5_only_invalid_payloads_get_400 unit tt fresh_process scenario_B
           (json_dumps error_payload)).
  vm_compute; reflexivity.
Defined.



(** ** The log *)

(** The records an invocation emits when [INFO] is enabled, call by call. *)
Lemma lambda_handler_log (C : Type) (event : value) (context : C) (w : world) :
  (logger_level w <= INFO)%Z ->
  snd (lambda_handler event context w) =
  mk_world (logger_level w)
    (emitted w ++ received event ::
     match dot_get event (str "body") (VStr (str "{}")) with
     | Raise e => [failed e]
     | Return raw =>
         match json_loads raw with
         | Raise e => [failed e]
         | Return body =>
             match dot_get body (str "id") VNone with
             | Raise e => [failed e]
             | Return user_id =>
                 match dot_get body (str "name") VNone with
                 | Raise e => [failed e]
                 | Return name =>
                     if negb (truthy user_id) || negb (truthy name)
                     then []
                     else [processing user_id name]
                 end
             end
         end
     end).
Proof.
  intros Hlevel. apply Z.leb_le in Hlevel as Hi.
  assert (He : (logger_level w <=? ERROR)%Z = true)
    by (apply Z.leb_le; unfold INFO, ERROR in *; lia).
  unfold lambda_handler, try_except, bind, lift, logger_info, logger_error,
    logger_log, ret, received, processing, failed.
  rewrite Hi. cbn [logger_level emitted].
  destruct (dot_get event (str "body") (VStr (str "{}"))) as [raw|e] eqn:E1.
  2:{ apply dot_get_raises_Exception in E1. rewrite E1.
      cbn [fst snd logger_level emitted]. rewrite He, <- app_assoc. reflexivity. }
  destruct (json_loads raw) as [body|e] eqn:E2.
  2:{ apply json_loads_raises_Exception in E2. rewrite E2.
      cbn [fst snd logger_level emitted]. rewrite He, <- app_assoc. reflexivity. }
  destruct (dot_get body (str "id") VNone) as [user_id|e] eqn:E3.
  2:{ apply dot_get_raises_Exception in E3. rewrite E3.
      cbn [fst snd logger_level emitted]. rewrite He, <- app_assoc. reflexivity. }
  destruct (dot_get body (str "name") VNone) as [name|e] eqn:E4.
  2:{ apply dot_get_raises_Exception in E4. rewrite E4.
      cbn [fst snd logger_level emitted]. rewrite He, <- app_assoc. reflexivity. }
  destruct (negb (truthy user_id) || negb (truthy name));
    cbn [fst snd logger_level emitted]; [reflexivity|].
  rewrite Hi, <- app_assoc. reflexivity.
Qed.

Lemma module_init_level (w : world) : (logger_level (module_init w) <= INFO)%Z.
Proof. unfold module_init. cbn. lia. Qed.



(** X8.  After the import of the module, an invocation answered with 400
    emits the record of the received event and nothing else: the validation
    failure is not logged. *)
Theorem X8_invalid_payload_is_not_logged (C : Type) (context : C) (w : world)
    (event : value) (body : pystr) :
  fst (lambda_handler event context (module_init w)) = Return (response 400 body) ->
  emitted (snd (lambda_handler event context (module_init w))) =
  emitted w
    ++ [mk_record INFO
          [Lit (str "Received event: "); Fmt (VStr (json_dumps event))]].
Proof.
  rewrite lambda_handler_outcome.
  rewrite (@lambda_handler_log C event context (module_init w) (@module_init_level w)).
  repeat break_goal; intros H; apply response_inj in H; destruct H;
    try discriminate; reflexivity.
Qed.

Lemma X8_invalid_payload_is_not_logged_witness :
  emitted (snd (lambda_handler scenario_B tt (module_init (mk_world 30 [])))) =
  emitted (mk_world 30 [])
    ++ [mk_record INFO
          [Lit (str "Received event: "); Fmt (VStr (json_dumps scenario_B))]].
Proof.
  apply (@X8_invalid_payload_is_not_logged unit tt (mk_world 30 []) scenario_B
           (json_dumps error_payload)).
  vm_compute; reflexivity.
Defined.




(** X11.  With the logger above [ERROR] an invocation leaves the state as it
    was: logging is the only effect of [lambda_handler]. *)
Theorem X11_silenced_logger (C : Type) (context : C) (w : world) (event : value) :
  (ERROR < logger_level w)%Z ->
  snd (lambda_handler event context w) = w.
Proof.
  intros Hlevel.
  assert (Hi : (logger_level w <=? INFO)%Z = false)
    by (apply Z.leb_gt; unfold INFO, ERROR in *; lia).
  assert (He : (logger_level w <=? ERROR)%Z = false) by (apply Z.leb_gt; lia).
  unfold lambda_handler, try_except, bind, lift, logger_info, logger_error,
    logger_log, ret.
  rewrite Hi.
  destruct (dot_get event (str "body") (VStr (str "{}"))) as [raw|e];
    [destruct (json_loads raw) as [body|e];
     [destruct (dot_get body (str "id") VNone) as [user_id|e];
      [destruct (dot_get body (str "name") VNone) as [name|e];
       [destruct (negb (truthy user_id) || negb (truthy name))|]|]|]|].
  all: try destruct (issubclass (exc_type e) Exception).
  all: cbn [fst snd logger_level emitted]; rewrite ?Hi, ?He; reflexivity.
Qed.

Lemma X11_silenced_logger_witness :
  snd (lambda_handler scenario_A tt silenced_process) = silenced_process.
Proof.
  apply (@X11_silenced_logger unit tt silenced_process scenario_A).
  vm_compute; reflexivity.
Defined.

(** ** The body is printable ASCII *)

(** Induction on a value, with the hypothesis for every item of a list and
    every value of a dict. *)
Lemma value_induction (P : value -> Prop) :
  P VNone ->
  (forall b, P (VBool b)) ->
  (forall n, P (VInt n)) ->
  (forall x, P (VFloat x)) ->
  (forall s, P (VStr s)) ->
  (forall items, Forall P items -> P (VList items)) ->
  (forall items, Forall (fun kv => P (snd kv)) items -> P (VDict items)) ->
  forall v, P v.
Proof.
  intros HN HB HI HF HS HL HD.
  fix IH 1. intros [|b|n|x|s|items|items].
  - exact HN.
  - apply HB.
  - apply HI.
  - apply HF.
  - apply HS.
  - apply HL. induction items as [|v items IHitems]; constructor.
    + apply IH.
    + exact IHitems.
  - apply HD. induction items as [|[k v] items IHitems]; constructor.
    + apply IH.
    + exact IHitems.
Qed.

Lemma ascii_text_app (a b : pystr) : ascii_text a -> ascii_text b -> ascii_text (a ++ b).
Proof. intros Ha Hb. apply Forall_app. split; assumption. Qed.

Lemma ascii_text_check (s : pystr) : forallb printable s = true -> ascii_text s.
Proof. intros H. apply Forall_forall. apply forallb_forall. exact H. Qed.

Lemma ascii_text_incl (a b : pystr) : incl a b -> ascii_text b -> ascii_text a.
Proof.
  intros Hi Hb. apply Forall_forall. intros c Hc.
  exact (proj1 (Forall_forall _ _) Hb c (Hi c Hc)).
Qed.

Lemma uint_digits_ascii (d : Decimal.uint) : ascii_text (uint_digits d).
Proof. induction d; simpl; constructor; auto. Qed.

Lemma int_repr_ascii (z : Z) : ascii_text (int_repr z).
Proof.
  unfold int_repr. destruct (Z.to_int z); [|constructor; [reflexivity|]];
    apply uint_digits_ascii.
Qed.

Lemma hex_digit_ascii (n : N) : printable (hex_digit (N.land n 15)) = true.
Proof.
  assert (H : (N.land n 15 < 16)%N).
  { change 15%N with (N.ones 4). rewrite N.land_ones. apply N.mod_lt. discriminate. }
  unfold hex_digit, printable.
  destruct (N.ltb_spec (N.land n 15) 10);
    apply andb_true_iff; split; apply N.leb_le; lia.
Qed.

Lemma hex4_ascii (n : N) : ascii_text (hex4 n).
Proof. unfold hex4. repeat constructor; apply hex_digit_ascii. Qed.

Lemma ascii_escape_unichar_ascii (c : N) : ascii_text (ascii_escape_unichar c).
Proof.
  unfold ascii_escape_unichar.
  repeat (break_goal; [apply ascii_text_check; reflexivity|]).
  destruct (N.leb 65536 c).
  - constructor; [reflexivity|]. constructor; [reflexivity|].
    apply ascii_text_app; [apply hex4_ascii|].
    constructor; [reflexivity|]. constructor; [reflexivity|]. apply hex4_ascii.
  - constructor; [reflexivity|]. constructor; [reflexivity|]. apply hex4_ascii.
Qed.

Lemma encode_basestring_ascii_ascii (s : pystr) :
  ascii_text (encode_basestring_ascii s).
Proof.
  unfold encode_basestring_ascii. constructor; [reflexivity|].
  apply ascii_text_app; [|apply ascii_text_check; reflexivity].
  induction s as [|c s IH]; [constructor|].
  cbn [flat_map]. apply ascii_text_app; [|exact IH].
  destruct (S_CHAR c) eqn:E; [|apply ascii_escape_unichar_ascii].
  constructor; [|constructor].
  unfold S_CHAR in E. unfold printable.
  apply andb_true_iff in E. destruct E as [E _].
  apply andb_true_iff in E. destruct E as [E _]. exact E.
Qed.

Lemma strip_zeros_incl (l : pystr) : incl (strip_zeros l) l.
Proof.
  induction l as [|c l IH]; simpl; [apply incl_refl|].
  destruct (N.eqb c 48); [apply incl_tl; exact IH | apply incl_refl].
Qed.

Lemma exponent_text_ascii (x : Z) : ascii_text (exponent_text x).
Proof.
  unfold exponent_text. constructor.
  - destruct (x <? 0)%Z; reflexivity.
  - destruct (Z.abs x <? 10)%Z; [constructor; [reflexivity|]|]; apply int_repr_ascii.
Qed.

Lemma zeros_ascii (n : Z) : ascii_text (zeros n).
Proof. unfold zeros. apply Forall_forall. intros c Hc. apply repeat_spec in Hc. subst. reflexivity. Qed.

Lemma float_repr_finite_ascii (m : positive) (e : Z) : ascii_text (float_repr_finite m e).
Proof.
  unfold float_repr_finite.
  destruct (shortest_decimal _ _ _ _ _ _) as [d x10].
  set (ds := rev (strip_zeros (rev (int_repr d)))).
  assert (Hds : ascii_text ds).
  { apply ascii_text_incl with (b := int_repr d); [|apply int_repr_ascii].
    intros c Hc. unfold ds in Hc. apply in_rev in Hc.
    apply strip_zeros_incl in Hc. apply in_rev in Hc. exact Hc. }
  destruct (_ || _)%bool.
  - destruct ds as [|d0 [|d1 more]].
    + constructor.
    + inversion Hds; subst. constructor; [assumption|].
      constructor; [reflexivity|]. apply exponent_text_ascii.
    + inversion Hds as [|? ? H0 Hmore]; subst. constructor; [assumption|].
      constructor; [reflexivity|]. apply ascii_text_app; [exact Hmore|].
      constructor; [reflexivity|]. apply exponent_text_ascii.
  - destruct (_ <=? 0)%Z.
    + apply ascii_text_app; [apply ascii_text_check; reflexivity|].
      apply ascii_text_app; [apply zeros_ascii | exact Hds].
    + destruct (_ <=? _)%Z.
      * apply ascii_text_app; [exact Hds|].
        apply ascii_text_app; [apply zeros_ascii | apply ascii_text_check; reflexivity].
      * apply ascii_text_app.
        -- apply ascii_text_incl with (b := ds); [|exact Hds].
           intros c Hc. rewrite <- (firstn_skipn (Z.to_nat (Z.of_nat (length (int_repr d)) + x10)) ds).
           apply in_or_app. left. exact Hc.
        -- constructor; [reflexivity|].
           apply ascii_text_incl with (b := ds); [|exact Hds].
           intros c Hc. rewrite <- (firstn_skipn (Z.to_nat (Z.of_nat (length (int_repr d)) + x10)) ds).
           apply in_or_app. right. exact Hc.
Qed.

Lemma floatstr_ascii (x : spec_float) : ascii_text (floatstr x).
Proof.
  destruct x as [s|s| |s m e]; simpl.
  - destruct s; apply ascii_text_check; reflexivity.
  - destruct s; apply ascii_text_check; reflexivity.
  - apply ascii_text_check; reflexivity.
  - apply ascii_text_app; [destruct s; [apply ascii_text_check; reflexivity | constructor]|].
    apply float_repr_finite_ascii.
Qed.

Lemma join_with_ascii (sep : pystr) (parts : list pystr) :
  ascii_text sep -> Forall ascii_text parts -> ascii_text (join_with sep parts).
Proof.
  intros Hsep Hparts. induction Hparts as [|p ps Hp Hps IH]; [constructor|].
  cbn [join_with]. destruct ps as [|q qs]; [exact Hp|].
  apply ascii_text_app; [exact Hp|]. apply ascii_text_app; [exact Hsep | exact IH].
Qed.

(** [json.dumps] writes printable ASCII only. *)
Lemma json_dumps_ascii (v : value) : ascii_text (json_dumps v).
Proof.
  unfold json_dumps. induction v as [|b|n|x|s|items IH|items IH] using value_induction.
  - apply ascii_text_check; reflexivity.
  - destruct b; apply ascii_text_check; reflexivity.
  - apply int_repr_ascii.
  - apply floatstr_ascii.
  - apply encode_basestring_ascii_ascii.
  - cbn [encode]. destruct items as [|v items]; [apply ascii_text_check; reflexivity|].
    apply ascii_text_app; [apply ascii_text_check; reflexivity|].
    apply ascii_text_app; [|apply ascii_text_check; reflexivity].
    apply join_with_ascii; [apply ascii_text_check; reflexivity|].
    apply Forall_map. exact IH.
  - cbn [encode]. destruct items as [|kv items]; [apply ascii_text_check; reflexivity|].
    apply ascii_text_app; [apply ascii_text_check; reflexivity|].
    apply ascii_text_app; [|apply ascii_text_check; reflexivity].
    apply join_with_ascii; [apply ascii_text_check; reflexivity|].
    apply Forall_map. apply Forall_forall. intros kv' Hkv.
    apply ascii_text_app; [apply encode_basestring_ascii_ascii|].
    apply ascii_text_app; [apply ascii_text_check; reflexivity|].
    exact (proj1 (Forall_forall _ _) IH kv' Hkv).
Qed.

(** X12.  The body of every response is printable ASCII: [json.dumps] escapes
    every other character of the payload, of the echoed [id] and [name] and
    of the message of an exception. *)
Theorem X12_body_is_printable_ascii (C : Type) (event : value) (context : C) (w : world) :
  exists (statusCode : Z) (body : pystr),
    fst (lambda_handler event context w) = Return (response statusCode body) /\
    Forall (fun c => (32 <= c <= 126)%N) body.
Proof.
  assert (H : exists st payload,
             fst (lambda_handler event context w)
             = Return (response st (json_dumps payload))).
  { rewrite lambda_handler_outcome. repeat break_goal; eexists; eexists; reflexivity. }
  destruct H as (st & payload & H).
  exists st, (json_dumps payload). split; [exact H|].
  pose proof (json_dumps_ascii payload) as Ha.
  apply Forall_forall. intros c Hc.
  pose proof (proj1 (Forall_forall _ _) Ha c Hc) as Hp.
  unfold printable in Hp. apply andb_true_iff in Hp. destruct Hp as [H1 H2].
  apply N.leb_le in H1. apply N.leb_le in H2. lia.
Qed.

(** ** [json.loads] reads back what [json.dumps] writes *)

(** ** Bits of a code point *)

Lemma land_shiftl_low (x y k : N) : (y < 2 ^ k)%N -> N.land (N.shiftl x k) y = 0%N.
Proof.
  intros Hy. apply N.bits_inj. intros n. rewrite N.land_spec, N.bits_0.
  destruct (N.lt_ge_cases n k) as [Hn|Hn].
  - rewrite N.shiftl_spec_low by exact Hn. reflexivity.
  - destruct (N.eq_dec y 0) as [->|Hy0]; [rewrite N.bits_0; apply andb_false_r|].
    rewrite (N.bits_above_log2 y n); [apply andb_false_r|].
    apply N.lt_le_trans with k; [|exact Hn].
    apply N.log2_lt_pow2; [lia | exact Hy].
Qed.

Lemma lor_shiftl_low (x y k : N) :
  (y < 2 ^ k)%N -> N.lor (N.shiftl x k) y = (x * 2 ^ k + y)%N.
Proof.
  intros Hy. pose proof (land_shiftl_low x k Hy) as H0.
  rewrite <- (N.lxor_lor _ _ H0), <- (N.add_nocarry_lxor _ _ H0).
  rewrite N.shiftl_mul_pow2. reflexivity.
Qed.

Lemma hex_value_digit (d : N) : (d < 16)%N -> hex_value (hex_digit d) = Some d.
Proof.
  intros Hd. 
  assert (H : forallb (fun d => match hex_value (hex_digit d) with Some d' => N.eqb d' d | None => false end)
                [0;1;2;3;4;5;6;7;8;9;10;11;12;13;14;15]%N = true) by reflexivity.
  rewrite forallb_forall in H.
  assert (Hin : In d [0;1;2;3;4;5;6;7;8;9;10;11;12;13;14;15]%N).
  { destruct d as [|p]; [simpl; auto|].
    do 4 (destruct p as [p|p|]; try (simpl in Hd; lia); simpl; auto 20). }
  specialize (H d Hin). destruct (hex_value (hex_digit d)); [|discriminate].
  apply N.eqb_eq in H. subst. reflexivity.
Qed.

Lemma land_15 (x : N) : N.land x 15 = (x mod 16)%N.
Proof. change 15%N with (N.ones 4). apply N.land_ones. Qed.

Lemma land_1023 (x : N) : N.land x 1023 = (x mod 1024)%N.
Proof. change 1023%N with (N.ones 10). apply N.land_ones. Qed.

(** Four hexadecimal digits read back as the number they write. *)
Lemma hex4_value_hex4 (c : N) :
  (c < 65536)%N ->
  match hex4 c with
  | [h1; h2; h3; h4] => hex4_value h1 h2 h3 h4 = Some c
  | _ => False
  end.
Proof.
  intros Hc. unfold hex4, hex4_value.
  rewrite !land_15, !N.shiftr_div_pow2.
  rewrite !hex_value_digit by (apply N.mod_lt; discriminate).
  f_equal.
  rewrite !lor_shiftl_low by (apply N.mod_lt; discriminate).
  change (2 ^ 4)%N with 16%N. change (2 ^ 12)%N with 4096%N. change (2 ^ 8)%N with 256%N.
  zify. Z.to_euclidean_division_equations. lia.
Qed.

(** The two halves of a code point beyond the basic plane, as
    [ascii_escape_unichar] writes them, join back to it. *)
Lemma surrogates_of_code_point (c : N) :
  (65536 <= c < 1114112)%N ->
  let hi := (55232 + N.shiftr c 10)%N in
  let lo := (56320 + N.land c 1023)%N in
  is_high_surrogate hi = true /\ is_low_surrogate lo = true /\
  (hi < 65536)%N /\ (lo < 65536)%N /\ join_surrogates hi lo = c.
Proof.
  intros Hc hi lo. subst hi lo.
  rewrite land_1023, N.shiftr_div_pow2. change (2 ^ 10)%N with 1024%N.
  unfold is_high_surrogate, is_low_surrogate, join_surrogates.
  rewrite !land_1023.
  rewrite lor_shiftl_low by (apply N.mod_lt; discriminate).
  change (2 ^ 10)%N with 1024%N.
  repeat split.
  - apply andb_true_iff; split; apply N.leb_le; zify; Z.to_euclidean_division_equations; lia.
  - apply andb_true_iff; split; apply N.leb_le; zify; Z.to_euclidean_division_equations; lia.
  - zify; Z.to_euclidean_division_equations; lia.
  - zify; Z.to_euclidean_division_equations; lia.
  - zify; Z.to_euclidean_division_equations; lia.
Qed.

Lemma scan_u_escape (b : nat) (c : N) (r : pystr) (n : nat) (chunks : pystr) :
  (c < 65536)%N ->
  r <> [] ->
  (is_high_surrogate c = true -> low_escape_ahead r = false) ->
  scanstring_from b (BACKSLASH :: ch "u" :: hex4 c ++ r) n chunks =
  scanstring_from b r (n + 6) (chunks ++ [c]).
Proof.
  intros Hc Hr Hlow. pose proof (hex4_value_hex4 Hc) as Hh.
  unfold hex4 in *. cbn [app scanstring_from].
  change (N.eqb BACKSLASH QUOTE) with false.
  change (N.eqb BACKSLASH BACKSLASH) with true.
  change (N.eqb (ch "u") (ch "u")) with true. cbv iota.
  destruct r as [|x r']; [contradiction|].
  rewrite Hh.
  destruct (is_high_surrogate c); [|reflexivity].
  specialize (Hlow eq_refl). unfold low_escape_ahead in Hlow.
  destruct r' as [|u [|g1 [|g2 [|g3 [|g4 [|y r'']]]]]]; try reflexivity.
  destruct (N.eqb x BACKSLASH && N.eqb u (ch "u")); [|reflexivity].
  cbn [andb] in Hlow.
  destruct (hex4_value g1 g2 g3 g4); [|discriminate].
  rewrite Hlow. reflexivity.
Qed.

Lemma scan_pair_escape (b : nat) (c : N) (r : pystr) (n : nat) (chunks : pystr) :
  (65536 <= c < 1114112)%N ->
  r <> [] ->
  scanstring_from b
    (BACKSLASH :: ch "u" :: hex4 (55232 + N.shiftr c 10)
       ++ BACKSLASH :: ch "u" :: hex4 (56320 + N.land c 1023) ++ r) n chunks =
  scanstring_from b r (n + 12) (chunks ++ [c]).
Proof.
  intros Hc Hr.
  destruct (surrogates_of_code_point Hc) as (Hhi & Hlo & Bhi & Blo & Hjoin).
  pose proof (hex4_value_hex4 Bhi) as Hh. pose proof (hex4_value_hex4 Blo) as Hl.
  unfold hex4 in *. cbn [app scanstring_from].
  change (N.eqb BACKSLASH QUOTE) with false.
  change (N.eqb BACKSLASH BACKSLASH) with true.
  change (N.eqb (ch "u") (ch "u")) with true. cbv iota.
  rewrite Hh, Hhi.
  destruct r as [|x r']; [contradiction|].
  cbn [andb]. rewrite Hl, Hlo, Hjoin. reflexivity.
Qed.

Lemma S_CHAR_plain (c : N) :
  S_CHAR c = true ->
  N.eqb c QUOTE = false /\ N.eqb c BACKSLASH = false /\ N.leb c 31 = false.
Proof.
  unfold S_CHAR. intros H.
  apply andb_true_iff in H. destruct H as [H Hq].
  apply andb_true_iff in H. destruct H as [H Hb].
  apply andb_true_iff in H. destruct H as [H32 _].
  apply negb_true_iff in Hq. apply negb_true_iff in Hb.
  apply N.leb_le in H32. repeat split; try assumption.
  apply N.leb_gt. lia.
Qed.

(** One character of a string, as [encode_basestring_ascii] writes it, is
    read back by [scanstring] as that character. *)
Lemma scan_escape_of (b : nat) (c : N) (r : pystr) (n : nat) (chunks : pystr) :
  is_code_point c = true ->
  r <> [] ->
  (is_high_surrogate c = true -> low_escape_ahead r = false) ->
  scanstring_from b (escape_of c ++ r) n chunks =
  scanstring_from b r (n + length (escape_of c)) (chunks ++ [c]).
Proof.
  intros Hcp Hr Hlow. unfold escape_of.
  destruct (S_CHAR c) eqn:Hs.
  { destruct (S_CHAR_plain c Hs) as (Hq & Hb & Hc).
    cbn [app scanstring_from length]. rewrite Hq, Hb, Hc, Nat.add_1_r. reflexivity. }
  unfold ascii_escape_unichar.
  repeat match goal with
  | |- context [if N.eqb c ?k then _ else _] =>
      destruct (N.eqb_spec c k) as [->|?]; [reflexivity|]
  end.
  apply N.ltb_lt in Hcp.
  destruct (N.leb_spec 65536 c) as [Hbig|Hsmall].
  - cbn [app]. rewrite <- app_assoc. cbn [app].
    rewrite (@scan_pair_escape b c r n chunks) by (auto; lia).
    reflexivity.
  - cbn [app]. rewrite (@scan_u_escape b c r n chunks Hsmall Hr Hlow).
    reflexivity.
Qed.

Lemma high_is_not_low (c : N) : is_high_surrogate c = true -> is_low_surrogate c = false.
Proof.
  unfold is_high_surrogate, is_low_surrogate. intros H.
  apply andb_true_iff in H. destruct H as [_ H]. apply N.leb_le in H.
  apply andb_false_iff. left. apply N.leb_gt. lia.
Qed.

Lemma low_escape_ahead_head (c : N) (tail : pystr) :
  N.eqb c BACKSLASH = false -> low_escape_ahead (c :: tail) = false.
Proof.
  intros Hc. unfold low_escape_ahead.
  do 6 (destruct tail as [|? tail]; [reflexivity|]).
  rewrite Hc. reflexivity.
Qed.

Lemma low_escape_ahead_short (c : N) (tail : pystr) :
  N.eqb c (ch "u") = false -> low_escape_ahead (BACKSLASH :: c :: tail) = false.
Proof.
  intros Hc. unfold low_escape_ahead.
  do 5 (destruct tail as [|? tail]; [reflexivity|]).
  rewrite Hc. reflexivity.
Qed.

Lemma low_escape_ahead_u (c : N) (tail : pystr) :
  (c < 65536)%N -> is_low_surrogate c = false ->
  low_escape_ahead (BACKSLASH :: ch "u" :: hex4 c ++ tail) = false.
Proof.
  intros Hc Hl. pose proof (hex4_value_hex4 Hc) as Hh.
  unfold hex4 in *. cbn [app]. unfold low_escape_ahead.
  destruct tail as [|x tail]; [reflexivity|].
  rewrite Hh, Hl. reflexivity.
Qed.

(** After a high surrogate, what follows in the encoded text is never read
    as its low half, unless the next character is one. *)
Lemma low_escape_ahead_escape_of (d : N) (tail : pystr) :
  is_code_point d = true -> is_low_surrogate d = false ->
  low_escape_ahead (escape_of d ++ tail) = false.
Proof.
  intros Hcp Hl. unfold escape_of.
  destruct (S_CHAR d) eqn:Hs.
  { destruct (S_CHAR_plain d Hs) as (_ & Hb & _). apply low_escape_ahead_head. exact Hb. }
  unfold ascii_escape_unichar.
  repeat match goal with
  | |- context [if N.eqb d ?k then _ else _] =>
      destruct (N.eqb_spec d k) as [->|?];
        [apply low_escape_ahead_short; reflexivity|]
  end.
  apply N.ltb_lt in Hcp.
  destruct (N.leb_spec 65536 d) as [Hbig|Hsmall].
  - destruct (@surrogates_of_code_point d) as (Hhi & _ & Bhi & _); [lia|].
    cbn [app]. rewrite <- app_assoc.
    apply low_escape_ahead_u; [exact Bhi | apply high_is_not_low; exact Hhi].
  - cbn [app]. apply low_escape_ahead_u; assumption.
Qed.

Lemma plain_text_cons (c : N) (s : pystr) :
  plain_text (c :: s) = true ->
  is_code_point c = true /\ plain_text s = true /\
  (is_high_surrogate c = true ->
   match s with d :: _ => is_low_surrogate d = false | [] => True end).
Proof.
  cbn [plain_text]. intros H.
  apply andb_true_iff in H. destruct H as [H Hs].
  apply andb_true_iff in H. destruct H as [Hc Hn].
  repeat split; try assumption.
  intros Hh. rewrite Hh in Hn. destruct s as [|d s']; [exact I|].
  cbn [andb] in Hn. apply negb_true_iff in Hn. exact Hn.
Qed.

(** [scanstring] reads back the text of a string. *)
Lemma scan_escaped (s : pystr) :
  plain_text s = true ->
  forall (b n : nat) (chunks suf : pystr),
    scanstring_from b (flat_map escape_of s ++ QUOTE :: suf) n chunks =
    Scanned (chunks ++ s) (n + length (flat_map escape_of s) + 1).
Proof.
  induction s as [|c s IH]; intros Hp b n chunks suf.
  - cbn [flat_map app scanstring_from length].
    change (N.eqb QUOTE QUOTE) with true. cbv iota.
    rewrite app_nil_r. f_equal. lia.
  - destruct (plain_text_cons _ _ Hp) as (Hc & Hs & Hh).
    cbn [flat_map]. rewrite <- app_assoc.
    rewrite scan_escape_of.
    + rewrite IH by exact Hs. rewrite <- app_assoc. cbn [app].
      f_equal. rewrite length_app. lia.
    + exact Hc.
    + destruct (flat_map escape_of s); discriminate.
    + intros Hhigh. specialize (Hh Hhigh).
      destruct s as [|d s']; [apply low_escape_ahead_head; reflexivity|].
      cbn [flat_map]. rewrite <- app_assoc.
      apply low_escape_ahead_escape_of; [|exact Hh].
      apply plain_text_cons in Hs. tauto.
Qed.

Lemma ends_value_cases (suf : pystr) :
  ends_value suf = true ->
  suf = [] \/ exists c rest, suf = c :: rest /\ (c = ch "," \/ c = ch "]" \/ c = ch "}").
Proof.
  destruct suf as [|c rest]; [auto|]. cbn [ends_value]. intros H. right.
  exists c, rest. split; [reflexivity|].
  apply orb_true_iff in H. destruct H as [H|H]; [apply orb_true_iff in H; destruct H as [H|H]|];
    apply N.eqb_eq in H; auto.
Qed.

Lemma uint_digits_all (d : Decimal.uint) : forallb is_digit (uint_digits d) = true.
Proof. induction d; simpl; auto. Qed.

Lemma span_digits_app (ds suf : pystr) :
  forallb is_digit ds = true -> ends_value suf = true ->
  span_digits (ds ++ suf) = (ds, suf).
Proof.
  intros Hds Hsuf. induction ds as [|c ds IH].
  - cbn [app]. destruct (ends_value_cases _ Hsuf) as [Hn|(c & rest & Heq & Hc)];
      subst; [reflexivity|]. destruct Hc as [Hc|[Hc|Hc]]; subst; reflexivity.
  - cbn [forallb] in Hds. apply andb_true_iff in Hds. destruct Hds as [Hc Hds].
    cbn [app span_digits]. rewrite Hc, (IH Hds). reflexivity.
Qed.

Lemma digits_value_acc (d : Decimal.uint) (acc : positive) :
  fold_left (fun a c => (10 * a + (Z.of_N c - 48))%Z) (uint_digits d) (Zpos acc)
  = Zpos (Pos.of_uint_acc d acc).
Proof.
  revert acc. induction d; intros acc; cbn [uint_digits fold_left Pos.of_uint_acc];
    try reflexivity;
    match goal with
    | |- fold_left _ _ ?z = _ =>
        match goal with
        | |- _ = Zpos (Pos.of_uint_acc _ ?a) =>
            replace z with (Zpos a) by lia; apply IHd
        end
    end.
Qed.

Lemma digits_value_uint (d : Decimal.uint) :
  digits_value (uint_digits d) = Z.of_N (Pos.of_uint d).
Proof.
  unfold digits_value. induction d; cbn [uint_digits fold_left Pos.of_uint];
    try reflexivity; try exact IHd;
    match goal with
    | |- fold_left _ _ ?z = Z.of_N (N.pos (Pos.of_uint_acc _ ?a)) =>
        replace z with (Zpos a) by lia; apply digits_value_acc
    end.
Qed.

Lemma digits_value_pos (p : positive) :
  digits_value (uint_digits (Pos.to_uint p)) = Zpos p.
Proof. rewrite digits_value_uint, DecimalPos.Unsigned.of_to. reflexivity. Qed.

(** The numeral of a positive number starts with a digit that is not zero. *)
Lemma unorm_head (d : Decimal.uint) :
  Decimal.unorm d = Decimal.D0 Decimal.Nil \/
  exists c ds, uint_digits (Decimal.unorm d) = c :: ds /\
               is_digit c = true /\ N.eqb c (ch "0") = false.
Proof.
  induction d; cbn [Decimal.unorm]; auto;
    right; eexists; eexists; cbn [uint_digits]; (split; [reflexivity|split; reflexivity]).
Qed.

Lemma to_uint_head (p : positive) :
  exists c ds, uint_digits (Pos.to_uint p) = c :: ds /\
               is_digit c = true /\ N.eqb c (ch "0") = false /\
               forallb is_digit ds = true.
Proof.
  assert (Hn : Decimal.unorm (Pos.to_uint p) = Pos.to_uint p).
  { rewrite <- DecimalPos.Unsigned.to_of, DecimalPos.Unsigned.of_to. reflexivity. }
  destruct (unorm_head (Pos.to_uint p)) as [H|(c & ds & H & Hc & H0)].
  - rewrite Hn in H. exfalso. exact (DecimalPos.Unsigned.to_uint_nonzero p H).
  - rewrite Hn in H. exists c, ds. repeat split; try assumption.
    pose proof (uint_digits_all (Pos.to_uint p)) as Ha. rewrite H in Ha.
    cbn [forallb] in Ha. apply andb_true_iff in Ha. tauto.
Qed.

Lemma digit_not (c k : N) :
  is_digit c = true -> (k < 48 \/ 57 < k)%N -> N.eqb c k = false.
Proof.
  unfold is_digit. intros H Hk. apply andb_true_iff in H. destruct H as [H1 H2].
  apply N.leb_le in H1. apply N.leb_le in H2. apply N.eqb_neq. lia.
Qed.

Ltac split_suffix H :=
  let Hn := fresh in let c := fresh "c" in let rest := fresh "rest" in
  let Heq := fresh in let Hc := fresh in
  destruct (ends_value_cases _ H) as [Hn|(c & rest & Heq & Hc)];
  [subst | subst; destruct Hc as [Hc|[Hc|Hc]]; subst; destruct rest].

Lemma match_number_int (c : N) (ds suf : pystr) (start : nat) :
  is_digit c = true ->
  forallb is_digit ds = true ->
  (N.eqb c (ch "0") = true -> ds = []) ->
  ends_value suf = true ->
  match_number (c :: ds ++ suf) start =
  Scanned (VInt (digits_value (c :: ds))) (start + S (length ds)).
Proof.
  intros Hc Hds Hz Hsuf. unfold match_number.
  rewrite (@digit_not c (ch "-") Hc) by (cbn; lia).
  destruct (N.eqb c (ch "0")) eqn:H0.
  - rewrite (Hz eq_refl). cbn [app].
    split_suffix Hsuf; cbn -[digits_value]; f_equal; lia.
  - rewrite Hc, (@span_digits_app ds suf Hds Hsuf).
    split_suffix Hsuf; cbn -[digits_value]; f_equal; lia.
Qed.

Lemma match_number_negative (c : N) (ds suf : pystr) (start : nat) :
  is_digit c = true ->
  forallb is_digit ds = true ->
  N.eqb c (ch "0") = false ->
  ends_value suf = true ->
  match_number (ch "-" :: c :: ds ++ suf) start =
  Scanned (VInt (- digits_value (c :: ds))) (start + S (S (length ds))).
Proof.
  intros Hc Hds H0 Hsuf. unfold match_number.
  change (N.eqb (ch "-") (ch "-")) with true. cbv iota.
  rewrite H0, Hc, (@span_digits_app ds suf Hds Hsuf).
  split_suffix Hsuf; cbn -[digits_value Z.opp]; f_equal; lia.
Qed.

(** More fuel never changes an answer. *)
Lemma scan_more_fuel (s : pystr) (fuel : nat) :
  forall fuel', fuel <= fuel' ->
  (forall idx, scan_once fuel s idx <> OutOfFuel ->
     scan_once fuel' s idx = scan_once fuel s idx) /\
  (forall idx acc, parse_object_items fuel s idx acc <> OutOfFuel ->
     parse_object_items fuel' s idx acc = parse_object_items fuel s idx acc) /\
  (forall idx acc, parse_array_items fuel s idx acc <> OutOfFuel ->
     parse_array_items fuel' s idx acc = parse_array_items fuel s idx acc).
Proof.
  induction fuel as [|fuel IH]; intros fuel' Hle.
  - repeat split; intros; exfalso; auto.
  - destruct fuel' as [|fuel']; [lia|].
    destruct (IH fuel' ltac:(lia)) as (IHs & IHo & IHa).
    repeat split.
    + intros idx. cbn [scan_once].
      destruct (skipn idx s) as [|c rest]; [reflexivity|].
      destruct (N.eqb c QUOTE); [reflexivity|].
      destruct (N.eqb c (ch "{")).
      { destruct (char_is s _ (ch "}")); [reflexivity|]. apply IHo. }
      destruct (N.eqb c (ch "[")).
      { destruct (char_is s _ (ch "]")); [reflexivity|]. apply IHa. }
      reflexivity.
    + intros idx acc. cbn [parse_object_items].
      destruct (negb (char_is s idx QUOTE)); [reflexivity|].
      destruct (scanstring s (idx + 1)) as [key next| | |]; try reflexivity.
      destruct (negb (char_is s (skip_whitespace s next) (ch ":"))); [reflexivity|].
      destruct (scan_once fuel s (skip_whitespace s (skip_whitespace s next + 1)))
        as [val next'| | |] eqn:Hv; intros Hne;
        [ | | |exfalso; apply Hne; reflexivity];
        rewrite (IHs _ ltac:(rewrite Hv; discriminate)), Hv; try reflexivity.
      destruct (char_is s (skip_whitespace s next') (ch "}")); [reflexivity|].
      destruct (negb (char_is s (skip_whitespace s next') (ch ","))); [reflexivity|].
      apply IHo. exact Hne.
    + intros idx acc. cbn [parse_array_items].
      destruct (scan_once fuel s idx) as [val next| | |] eqn:Hv; intros Hne;
        [ | | |exfalso; apply Hne; reflexivity];
        rewrite (IHs _ ltac:(rewrite Hv; discriminate)), Hv; try reflexivity.
      destruct (char_is s (skip_whitespace s next) (ch "]")); [reflexivity|].
      destruct (negb (char_is s (skip_whitespace s next) (ch ","))); [reflexivity|].
      apply IHa. exact Hne.
Qed.

(** ** Reading at a cursor *)

Lemma nth_error_skipn (s : pystr) (idx : nat) :
  nth_error s idx = hd_error (skipn idx s).
Proof.
  revert s. induction idx as [|idx IH]; intros [|c s]; try reflexivity. apply IH.
Qed.

Lemma char_is_cursor (s : pystr) (idx : nat) (k : N) :
  char_is s idx k =
  match skipn idx s with c :: _ => N.eqb c k | [] => false end.
Proof.
  unfold char_is, char_at. rewrite nth_error_skipn.
  destruct (skipn idx s); reflexivity.
Qed.

Lemma cursor_advance (s : pystr) (idx : nat) (a b : pystr) :
  skipn idx s = a ++ b -> skipn (idx + length a) s = b.
Proof.
  intros H. rewrite Nat.add_comm, <- skipn_skipn, H.
  rewrite skipn_app, skipn_all, Nat.sub_diag. reflexivity.
Qed.

Lemma starts_value_facts (c : N) :
  starts_value c = true ->
  is_whitespace c = false /\ N.eqb c (ch "]") = false /\
  N.eqb c (ch "}") = false /\ N.eqb c 65279 = false.
Proof.
  unfold starts_value. intros H. apply orb_true_iff in H. destruct H as [H|H].
  - unfold is_whitespace. unfold is_digit in H.
    apply andb_true_iff in H. destruct H as [H1 H2].
    apply N.leb_le in H1. apply N.leb_le in H2.
    repeat split; try (apply N.eqb_neq; cbn; lia).
    repeat (apply orb_false_iff; split); apply N.eqb_neq; lia.
  - cbn [existsb str map list_ascii_of_string] in H.
    repeat (apply orb_true_iff in H; destruct H as [H|H];
            [apply N.eqb_eq in H; subst c; repeat split; reflexivity|]).
    discriminate.
Qed.

(** ** What [json.dumps] writes starts like a value *)

Lemma int_repr_shape (n : Z) :
  (n = 0%Z /\ int_repr n = [ch "0"]) \/
  (exists c ds, (0 < n)%Z /\ int_repr n = c :: ds /\ is_digit c = true /\
                N.eqb c (ch "0") = false /\ forallb is_digit ds = true /\
                digits_value (c :: ds) = n) \/
  (exists c ds, (n < 0)%Z /\ int_repr n = ch "-" :: c :: ds /\ is_digit c = true /\
                N.eqb c (ch "0") = false /\ forallb is_digit ds = true /\
                digits_value (c :: ds) = (- n)%Z).
Proof.
  destruct n as [|p|p].
  - left. split; reflexivity.
  - right; left. destruct (to_uint_head p) as (c & ds & H & Hc & H0 & Hds).
    exists c, ds. unfold int_repr. cbn [Z.to_int]. rewrite <- H.
    repeat split; try assumption; try lia. apply digits_value_pos.
  - right; right. destruct (to_uint_head p) as (c & ds & H & Hc & H0 & Hds).
    exists c, ds. unfold int_repr. cbn [Z.to_int]. rewrite <- H.
    repeat split; try assumption; try lia. rewrite digits_value_pos. reflexivity.
Qed.

Lemma digit_starts_value (c : N) : is_digit c = true -> starts_value c = true.
Proof. intros H. unfold starts_value. rewrite H. reflexivity. Qed.

Lemma encode_head (v : value) :
  plain v = true ->
  exists c rest, encode v = c :: rest /\ starts_value c = true.
Proof.
  destruct v as [|b|n|x|s|items|items]; intros Hp.
  - eexists; eexists; split; reflexivity.
  - destruct b; eexists; eexists; split; reflexivity.
  - cbn [encode].
    destruct (int_repr_shape n) as [(_ & H)|[(c & ds & _ & H & Hc & _)|(c & ds & _ & H & _)]];
      rewrite H; eexists; eexists; (split; [reflexivity|]);
      first [reflexivity | apply digit_starts_value; exact Hc].
  - destruct x as [sg|sg| |sg m e]; try discriminate;
      try destruct sg; eexists; eexists; split; reflexivity.
  - eexists; eexists; split; reflexivity.
  - cbn [encode]. destruct items; eexists; eexists; split; reflexivity.
  - cbn [encode]. destruct items; eexists; eexists; split; reflexivity.
Qed.

(** ** Numbers, constants and strings at a cursor *)

Lemma scan_once_number (fuel : nat) (s : pystr) (idx : nat) (c : N) (rest : pystr) :
  skipn idx s = c :: rest ->
  is_digit c = true \/
  (c = ch "-" /\ exists d rest', rest = d :: rest' /\ is_digit d = true) ->
  scan_once (S fuel) s idx = match_number (c :: rest) idx.
Proof.
  intros Hcur Hc. cbn [scan_once]. rewrite Hcur.
  destruct Hc as [Hc|(-> & d & rest' & -> & Hd)].
  - unfold is_digit in Hc. apply andb_true_iff in Hc. destruct Hc as [H1 H2].
    apply N.leb_le in H1. apply N.leb_le in H2.
    cbn [starts_with str map list_ascii_of_string].
    repeat match goal with
    | |- context [N.eqb ?a ?b] =>
        destruct (N.eqb_spec a b) as [Heq|_];
          [exfalso; revert Heq; unfold QUOTE, ch; cbn; lia|]
    end.
    reflexivity.
  - unfold is_digit in Hd. apply andb_true_iff in Hd. destruct Hd as [H1 H2].
    apply N.leb_le in H1. apply N.leb_le in H2.
    change (N.eqb (ch "-") QUOTE) with false.
    change (N.eqb (ch "-") (ch "{")) with false.
    change (N.eqb (ch "-") (ch "[")) with false.
    cbn [starts_with str map list_ascii_of_string].
    change (N.eqb (N_of_ascii "n") (ch "-")) with false.
    change (N.eqb (N_of_ascii "t") (ch "-")) with false.
    change (N.eqb (N_of_ascii "f") (ch "-")) with false.
    change (N.eqb (N_of_ascii "N") (ch "-")) with false.
    change (N.eqb (N_of_ascii "I") (ch "-")) with false.
    change (N.eqb (N_of_ascii "-") (ch "-")) with true.
    cbn [andb].
    destruct (N.eqb_spec (N_of_ascii "I") d) as [Heq|_];
      [exfalso; revert Heq; cbn; lia|].
    reflexivity.
Qed.

Ltac enough_fuel_1 :=
  exists 1; intros fuel Hfuel; destruct fuel as [|fuel]; [lia|].

Lemma reads_back_constant (v : value) (text : string) :
  encode v = str text ->
  (forall fuel s idx suf,
     skipn idx s = str text ++ suf ->
     scan_once (S fuel) s idx = Scanned v (idx + length (str text))) ->
  reads_back v.
Proof.
  intros He H s idx suf Hcur _. rewrite He in *. enough_fuel_1. eauto.
Qed.

Lemma reads_back_None : reads_back VNone.
Proof.
  apply reads_back_constant with (text := "null"%string); [reflexivity|].
  intros fuel s idx suf Hcur. cbn [scan_once]. rewrite Hcur. reflexivity.
Qed.

Lemma reads_back_Bool (b : bool) : reads_back (VBool b).
Proof.
  destruct b.
  - apply reads_back_constant with (text := "true"%string); [reflexivity|].
    intros fuel s idx suf Hcur. cbn [scan_once]. rewrite Hcur. reflexivity.
  - apply reads_back_constant with (text := "false"%string); [reflexivity|].
    intros fuel s idx suf Hcur. cbn [scan_once]. rewrite Hcur. reflexivity.
Qed.

Lemma reads_back_Int (n : Z) : reads_back (VInt n).
Proof.
  intros s idx suf Hcur Hsuf. cbn [encode] in *. enough_fuel_1.
  destruct (int_repr_shape n)
    as [(Hn & H)|[(c & ds & _ & H & Hc & H0 & Hds & Hv)|(c & ds & _ & H & Hc & H0 & Hds & Hv)]];
    rewrite H in *; cbn [app] in Hcur.
  - subst n. rewrite (@scan_once_number fuel s idx _ _ Hcur) by (left; reflexivity).
    pose proof (@match_number_int (ch "0") [] suf idx eq_refl eq_refl
                  (fun _ => eq_refl) Hsuf) as Hm.
    cbn [app] in Hm. rewrite Hm. reflexivity.
  - rewrite (@scan_once_number fuel s idx _ _ Hcur) by (left; exact Hc).
    rewrite (@match_number_int c ds suf idx Hc Hds) by (auto; congruence).
    rewrite Hv. reflexivity.
  - rewrite (@scan_once_number fuel s idx _ _ Hcur)
      by (right; split; [reflexivity|]; eauto).
    rewrite (@match_number_negative c ds suf idx Hc Hds H0 Hsuf).
    rewrite Hv, Z.opp_involutive. reflexivity.
Qed.

Lemma reads_back_Float (x : spec_float) :
  plain (VFloat x) = true -> reads_back (VFloat x).
Proof.
  destruct x as [sg|sg| |sg m e]; try discriminate; intros _.
  - intros s idx suf Hcur Hsuf. enough_fuel_1. destruct sg.
    + change (encode (VFloat (S754_zero true))) with (str "-0.0") in *.
      cbn [app str map list_ascii_of_string] in Hcur.
      rewrite (@scan_once_number fuel s idx _ _ Hcur)
        by (right; split; [reflexivity|]; eexists; eexists; split; reflexivity).
      unfold match_number. split_suffix Hsuf; cbn; f_equal; lia.
    + change (encode (VFloat (S754_zero false))) with (str "0.0") in *.
      cbn [app str map list_ascii_of_string] in Hcur.
      rewrite (@scan_once_number fuel s idx _ _ Hcur) by (left; reflexivity).
      unfold match_number. split_suffix Hsuf; cbn; f_equal; lia.
  - destruct sg.
    + apply reads_back_constant with (text := "-Infinity"%string); [reflexivity|].
      intros fuel s idx suf Hcur. cbn [scan_once]. rewrite Hcur. reflexivity.
    + apply reads_back_constant with (text := "Infinity"%string); [reflexivity|].
      intros fuel s idx suf Hcur. cbn [scan_once]. rewrite Hcur. reflexivity.
  - apply reads_back_constant with (text := "NaN"%string); [reflexivity|].
    intros fuel s idx suf Hcur. cbn [scan_once]. rewrite Hcur. reflexivity.
Qed.

Lemma encode_basestring_ascii_eq (text : pystr) :
  encode_basestring_ascii text = QUOTE :: flat_map escape_of text ++ [QUOTE].
Proof. reflexivity. Qed.

(** [scanstring] at a cursor just after the opening quote. *)
Lemma scanstring_reads_back (s : pystr) (idx : nat) (text suf : pystr) :
  plain_text text = true ->
  skipn idx s = encode_basestring_ascii text ++ suf ->
  scanstring s (idx + 1) =
  Scanned text (idx + length (encode_basestring_ascii text)).
Proof.
  intros Hp Hcur. rewrite encode_basestring_ascii_eq in *.
  change (QUOTE :: flat_map escape_of text ++ [QUOTE])
    with ([QUOTE] ++ (flat_map escape_of text ++ [QUOTE])) in Hcur.
  rewrite <- app_assoc in Hcur. apply cursor_advance in Hcur.
  cbn [length] in Hcur. rewrite <- app_assoc in Hcur. cbn [app] in Hcur.
  unfold scanstring. rewrite Hcur, (scan_escaped _ Hp). cbn [app].
  cbn [length]. rewrite length_app. cbn [length]. apply f_equal. lia.
Qed.

Lemma reads_back_Str (text : pystr) :
  plain_text text = true -> reads_back (VStr text).
Proof.
  intros Hp s idx suf Hcur _. cbn [encode] in *. enough_fuel_1.
  cbn [scan_once].
  rewrite (@scanstring_reads_back s idx text suf Hp Hcur).
  rewrite encode_basestring_ascii_eq in Hcur. cbn [app] in Hcur. rewrite Hcur.
  change (N.eqb QUOTE QUOTE) with true. reflexivity.
Qed.

(** ** Lists and dicts at a cursor *)

Lemma skip_whitespace_stays (s : pystr) (idx : nat) (c : N) (r : pystr) :
  skipn idx s = c :: r -> is_whitespace c = false -> skip_whitespace s idx = idx.
Proof.
  intros Hcur Hc. unfold skip_whitespace. rewrite Hcur. cbn [whitespace_len].
  rewrite Hc. lia.
Qed.

Lemma skip_whitespace_one (s : pystr) (idx : nat) (c : N) (r : pystr) :
  skipn idx s = 32%N :: c :: r -> is_whitespace c = false ->
  skip_whitespace s idx = idx + 1.
Proof.
  intros Hcur Hc. unfold skip_whitespace. rewrite Hcur. cbn [whitespace_len].
  change (is_whitespace 32) with true. cbv iota. rewrite Hc. lia.
Qed.

Lemma join_with_cons (sep p : pystr) (ps : list pystr) :
  join_with sep (p :: ps) =
  match ps with [] => p | _ :: _ => p ++ sep ++ join_with sep ps end.
Proof. destruct ps; reflexivity. Qed.

Lemma starts_value_not_ws (c : N) : starts_value c = true -> is_whitespace c = false.
Proof. intros H. apply starts_value_facts in H. tauto. Qed.

Lemma encoded_items_head (v : value) (items : list value) (tail : pystr) :
  plain v = true ->
  exists c rest,
    join_with (str ", ") (map encode (v :: items)) ++ tail = c :: rest /\
    starts_value c = true.
Proof.
  intros Hp. destruct (encode_head v Hp) as (c & rest & He & Hc).
  cbn [map]. rewrite join_with_cons.
  destruct (map encode items); rewrite He; eexists; eexists; (split; [reflexivity | exact Hc]).
Qed.

Lemma array_items_read_back (items : list value) :
  Forall (fun v => plain v = true /\ reads_back v) items ->
  forall (v : value), plain v = true -> reads_back v ->
  forall (s : pystr) (idx : nat) (acc : list value) (suf : pystr),
    skipn idx s =
      join_with (str ", ") (map encode (v :: items)) ++ ch "]" :: suf ->
    exists n, forall fuel, n <= fuel ->
      parse_array_items fuel s idx acc =
      Scanned (VList (acc ++ v :: items))
        (idx + length (join_with (str ", ") (map encode (v :: items))) + 1).
Proof.
  induction 1 as [|v2 items [Hp2 Hr2] Hitems IH]; intros v Hp Hr s idx acc suf Hcur.
  - cbn [map join_with] in *.
    destruct (Hr s idx (ch "]" :: suf) Hcur eq_refl) as (n1 & Hn1).
    exists (S n1). intros fuel Hfuel. destruct fuel as [|fuel]; [lia|].
    cbn [parse_array_items]. rewrite Hn1 by lia.
    apply cursor_advance in Hcur.
    rewrite (@skip_whitespace_stays s _ _ _ Hcur eq_refl).
    rewrite char_is_cursor, Hcur. reflexivity.
  - cbn [map] in *. rewrite join_with_cons in *. cbn [map] in Hcur.
    change (match encode v2 :: map encode items with
            | [] => encode v
            | _ :: _ => encode v ++ str ", " ++ join_with (str ", ") (encode v2 :: map encode items)
            end)
      with (encode v ++ str ", " ++ join_with (str ", ") (map encode (v2 :: items))) in *.
    rewrite <- !app_assoc in Hcur.
    destruct (Hr s idx _ Hcur eq_refl) as (n1 & Hn1).
    apply cursor_advance in Hcur.
    set (next := idx + length (encode v)) in *.
    assert (Hcomma : skipn (next + 1) s =
                     32%N :: join_with (str ", ") (map encode (v2 :: items))
                       ++ ch "]" :: suf).
    { apply (@cursor_advance s next [ch ","]). exact Hcur. }
    destruct (@encoded_items_head v2 items (ch "]" :: suf) Hp2)
      as (c & rest & Hhead & Hc).
    assert (Hnext : skipn (next + 1 + 1) s =
                    join_with (str ", ") (map encode (v2 :: items)) ++ ch "]" :: suf).
    { apply (@cursor_advance s (next + 1) [32%N]). exact Hcomma. }
    destruct (IH v2 Hp2 Hr2 s (next + 1 + 1) (acc ++ [v]) suf Hnext) as (n2 & Hn2).
    exists (S (Nat.max n1 n2)). intros fuel Hfuel. destruct fuel as [|fuel]; [lia|].
    cbn [parse_array_items]. rewrite Hn1 by lia. fold next.
    rewrite (@skip_whitespace_stays s next _ _ Hcur eq_refl).
    rewrite !char_is_cursor, Hcur.
    change (N.eqb (N_of_ascii ",") (ch "]")) with false.
    change (N.eqb (N_of_ascii ",") (ch ",")) with true. cbn [negb].
    rewrite Hhead in Hcomma.
    rewrite (@skip_whitespace_one s (next + 1) c rest Hcomma (starts_value_not_ws _ Hc)).
    rewrite Hn2 by lia. rewrite <- app_assoc. cbn [app].
    apply f_equal. subst next. rewrite !length_app. cbn [length str map list_ascii_of_string]. lia.
Qed.

Lemma str_eqb_sym (a b : pystr) : str_eqb a b = str_eqb b a.
Proof.
  revert b. induction a as [|x a IH]; intros [|y b]; try reflexivity.
  cbn [str_eqb]. rewrite N.eqb_sym, IH. reflexivity.
Qed.

(** A key that is new goes to the end of the dict. *)
Lemma dict_set_new (acc : dict) (k : pystr) (v : value) (items : dict) :
  unique_keys (acc ++ (k, v) :: items) = true ->
  dict_set acc k v = acc ++ [(k, v)].
Proof.
  induction acc as [|[k' v'] acc IH]; intros Hu; [reflexivity|].
  cbn [app unique_keys] in Hu. apply andb_true_iff in Hu. destruct Hu as [Hk Hu].
  cbn [dict_set app]. apply negb_true_iff in Hk.
  unfold key_in in Hk. rewrite existsb_app in Hk. apply orb_false_iff in Hk.
  destruct Hk as [_ Hk]. cbn [existsb fst] in Hk. apply orb_false_iff in Hk.
  destruct Hk as [Hk _]. rewrite str_eqb_sym, Hk, (IH Hu). reflexivity.
Qed.

(** One item of a dict: the key, the colon and the value are read, and the
    loop goes on at what follows. *)
Lemma object_item_read_back (k : pystr) (v : value) (s : pystr) (idx : nat)
    (acc : dict) (t : N) (tail : pystr) :
  plain_text k = true -> plain v = true -> reads_back v ->
  skipn idx s = item_text (k, v) ++ t :: tail ->
  ends_value (t :: tail) = true ->
  exists n, forall fuel, n <= fuel ->
    parse_object_items (S fuel) s idx acc =
    let idx4 := idx + length (item_text (k, v)) in
    if N.eqb t (ch "}") then Scanned (VDict (dict_set acc k v)) (idx4 + 1)
    else if negb (N.eqb t (ch ",")) then
      DecodeError (str "Expecting ',' delimiter") idx4
    else parse_object_items fuel s (skip_whitespace s (idx4 + 1)) (dict_set acc k v).
Proof.
  intros Hk Hp Hr Hcur Hends. unfold item_text in *. cbn [fst snd] in *.
  rewrite <- !app_assoc in Hcur.
  pose proof (@scanstring_reads_back s idx k _ Hk Hcur) as Hkey.
  pose proof Hcur as Hquote.
  rewrite encode_basestring_ascii_eq in Hquote. cbn [app] in Hquote.
  apply cursor_advance in Hcur.
  set (next := idx + length (encode_basestring_ascii k)) in *.
  cbn [app str map list_ascii_of_string] in Hcur.
  assert (Hcolon : skipn (next + 1) s = 32%N :: encode v ++ t :: tail).
  { apply (@cursor_advance s next [N_of_ascii ":"]). exact Hcur. }
  destruct (encode_head v Hp) as (c & rest & Hhead & Hc).
  assert (Hval : skipn (next + 1 + 1) s = encode v ++ t :: tail).
  { apply (@cursor_advance s (next + 1) [32%N]). exact Hcolon. }
  destruct (Hr s (next + 1 + 1) (t :: tail) Hval Hends) as (n1 & Hn1).
  exists n1. intros fuel Hfuel.
  cbn [parse_object_items].
  rewrite char_is_cursor, Hquote. change (N.eqb QUOTE QUOTE) with true. cbn [negb].
  rewrite Hkey.
  rewrite (@skip_whitespace_stays s next _ _ Hcur eq_refl).
  rewrite char_is_cursor, Hcur.
  change (N.eqb (N_of_ascii ":") (ch ":")) with true. cbn [negb].
  rewrite Hhead in Hcolon.
  rewrite (@skip_whitespace_one s (next + 1) c _ Hcolon (starts_value_not_ws _ Hc)).
  rewrite Hn1 by lia.
  apply cursor_advance in Hval.
  assert (Hws : is_whitespace t = false).
  { cbn [ends_value] in Hends. apply orb_true_iff in Hends.
    destruct Hends as [Hends|Hends];
      [apply orb_true_iff in Hends; destruct Hends as [Hends|Hends]|];
      apply N.eqb_eq in Hends; subst t; reflexivity. }
  rewrite (@skip_whitespace_stays s _ _ _ Hval Hws).
  rewrite !char_is_cursor, Hval.
  assert (Hlen : next + 1 + 1 + length (encode v) =
                 idx + length (encode_basestring_ascii k ++ str ": " ++ encode v)).
  { subst next. rewrite !length_app. cbn [length str map list_ascii_of_string]. lia. }
  rewrite Hlen. reflexivity.
Qed.

Lemma object_items_read_back (items : dict) :
  Forall (fun kv => plain_text (fst kv) = true /\ plain (snd kv) = true /\
                    reads_back (snd kv)) items ->
  forall (kv : pystr * value),
    plain_text (fst kv) = true -> plain (snd kv) = true -> reads_back (snd kv) ->
  forall (s : pystr) (idx : nat) (acc : dict) (suf : pystr),
    unique_keys (acc ++ kv :: items) = true ->
    skipn idx s =
      join_with (str ", ") (map item_text (kv :: items)) ++ ch "}" :: suf ->
    exists n, forall fuel, n <= fuel ->
      parse_object_items fuel s idx acc =
      Scanned (VDict (acc ++ kv :: items))
        (idx + length (join_with (str ", ") (map item_text (kv :: items))) + 1).
Proof.
  induction 1 as [|kv2 items (Hk2 & Hp2 & Hr2) Hitems IH];
    intros [k v] Hk Hp Hr s idx acc suf Hu Hcur; cbn [fst snd] in *.
  - cbn [map join_with] in *.
    destruct (@object_item_read_back k v s idx acc _ _ Hk Hp Hr Hcur eq_refl)
      as (n1 & Hn1).
    exists (S n1). intros fuel Hfuel. destruct fuel as [|fuel]; [lia|].
    rewrite Hn1 by lia. cbv zeta.
    change (N.eqb (ch "}") (ch "}")) with true. cbv iota.
    rewrite (dict_set_new _ _ _ _ Hu). reflexivity.
  - cbn [map] in *. rewrite join_with_cons in *. cbn [map] in Hcur.
    change (match item_text kv2 :: map item_text items with
            | [] => item_text (k, v)
            | _ :: _ => item_text (k, v) ++ str ", "
                          ++ join_with (str ", ") (item_text kv2 :: map item_text items)
            end)
      with (item_text (k, v) ++ str ", "
              ++ join_with (str ", ") (map item_text (kv2 :: items))) in *.
    rewrite <- !app_assoc in Hcur.
    cbn [app str map list_ascii_of_string] in Hcur.
    destruct (@object_item_read_back k v s idx acc _ _ Hk Hp Hr Hcur eq_refl)
      as (n1 & Hn1).
    apply cursor_advance in Hcur.
    set (next := idx + length (item_text (k, v))) in *.
    assert (Hcomma : skipn (next + 1) s =
                     32%N :: join_with (str ", ") (map item_text (kv2 :: items))
                       ++ ch "}" :: suf).
    { apply (@cursor_advance s next [N_of_ascii ","]). exact Hcur. }
    assert (Hnext : skipn (next + 1 + 1) s =
                    join_with (str ", ") (map item_text (kv2 :: items))
                      ++ ch "}" :: suf).
    { apply (@cursor_advance s (next + 1) [32%N]). exact Hcomma. }
    assert (Hu' : unique_keys ((acc ++ [(k, v)]) ++ kv2 :: items) = true).
    { rewrite <- app_assoc. exact Hu. }
    destruct (IH kv2 Hk2 Hp2 Hr2 s (next + 1 + 1) (acc ++ [(k, v)]) suf Hu' Hnext)
      as (n2 & Hn2).
    exists (S (Nat.max n1 n2)). intros fuel Hfuel. destruct fuel as [|fuel]; [lia|].
    rewrite Hn1 by lia. cbv zeta. fold next.
    change (N.eqb (N_of_ascii ",") (ch "}")) with false.
    change (N.eqb (N_of_ascii ",") (ch ",")) with true. cbn [negb]. cbv iota.
    assert (Hsp : skip_whitespace s (next + 1) = next + 1 + 1).
    { cbn [map] in Hcomma. rewrite join_with_cons in Hcomma.
      destruct (map item_text items);
        unfold item_text at 1 in Hcomma; cbn [fst] in Hcomma;
        rewrite encode_basestring_ascii_eq in Hcomma;
        cbn [app] in Hcomma;
        exact (@skip_whitespace_one s (next + 1) _ _ Hcomma eq_refl). }
    rewrite Hsp, (dict_set_new _ _ _ _ Hu), Hn2 by lia.
    rewrite <- app_assoc. cbn [app].
    apply f_equal. subst next. rewrite !length_app.
    cbn [length str map list_ascii_of_string]. lia.
Qed.

(** ** What [json.dumps] writes, [json.loads] reads back *)

Lemma plain_reads_back (v : value) : plain v = true -> reads_back v.
Proof.
  induction v as [|b|n|x|text|items IH|items IH] using value_induction; intros Hp.
  - apply reads_back_None.
  - apply reads_back_Bool.
  - apply reads_back_Int.
  - apply reads_back_Float. exact Hp.
  - apply reads_back_Str. exact Hp.
  - cbn [plain] in Hp. intros s idx suf Hcur _.
    destruct items as [|v items].
    + assert (Hopen : skipn idx s = ch "[" :: ch "]" :: suf) by (rewrite Hcur; reflexivity).
      pose proof (@cursor_advance s idx [ch "["] _ Hopen) as Hnext. cbn [length] in Hnext.
      enough_fuel_1. cbn [scan_once]. rewrite Hopen.
      change (N.eqb (ch "[") QUOTE) with false.
      change (N.eqb (ch "[") (ch "{")) with false.
      change (N.eqb (ch "[") (ch "[")) with true. cbv iota.
      rewrite (@skip_whitespace_stays s _ _ _ Hnext eq_refl).
      rewrite char_is_cursor, Hnext.
      change (N.eqb (ch "]") (ch "]")) with true. cbv iota.
      apply f_equal. change (length (encode (VList []))) with 2. lia.
    + cbn [forallb] in Hp. apply andb_true_iff in Hp. destruct Hp as [Hv Hitems].
      inversion IH as [|? ? IHv IHitems]; subst.
      assert (Hall : Forall (fun v => plain v = true /\ reads_back v) items).
      { rewrite forallb_forall in Hitems. rewrite Forall_forall in IHitems.
        apply Forall_forall. intros v' Hin. split; auto. }
      assert (Hopen : skipn idx s =
                      ch "[" :: (join_with (str ", ") (map encode (v :: items))
                                   ++ ch "]" :: suf)).
      { rewrite Hcur. cbn [encode]. rewrite <- !app_assoc. reflexivity. }
      pose proof (@cursor_advance s idx [ch "["] _ Hopen) as Hnext. cbn [length] in Hnext.
      destruct (@array_items_read_back items Hall v Hv (IHv Hv) s (idx + 1) [] suf Hnext)
        as (n1 & Hn1).
      destruct (@encoded_items_head v items (ch "]" :: suf) Hv)
        as (c & rest & Hhead & Hc).
      exists (S n1). intros fuel Hfuel. destruct fuel as [|fuel]; [lia|].
      cbn [scan_once]. rewrite Hopen.
      change (N.eqb (ch "[") QUOTE) with false.
      change (N.eqb (ch "[") (ch "{")) with false.
      change (N.eqb (ch "[") (ch "[")) with true. cbv iota.
      rewrite Hhead in Hnext.
      destruct (starts_value_facts _ Hc) as (Hws & Hbr & _).
      rewrite (@skip_whitespace_stays s _ _ _ Hnext Hws).
      rewrite char_is_cursor, Hnext, Hbr.
      rewrite Hn1 by lia. cbn [app].
      apply f_equal. cbn [encode]. rewrite !length_app.
      change (length (str "[")) with 1. change (length (str "]")) with 1. lia.
  - cbn [plain] in Hp. apply andb_true_iff in Hp. destruct Hp as [Hu Hp].
    intros s idx suf Hcur _.
    destruct items as [|kv items].
    + assert (Hopen : skipn idx s = ch "{" :: ch "}" :: suf) by (rewrite Hcur; reflexivity).
      pose proof (@cursor_advance s idx [ch "{"] _ Hopen) as Hnext. cbn [length] in Hnext.
      enough_fuel_1. cbn [scan_once]. rewrite Hopen.
      change (N.eqb (ch "{") QUOTE) with false.
      change (N.eqb (ch "{") (ch "{")) with true. cbv iota.
      rewrite (@skip_whitespace_stays s _ _ _ Hnext eq_refl).
      rewrite char_is_cursor, Hnext.
      change (N.eqb (ch "}") (ch "}")) with true. cbv iota.
      apply f_equal. change (length (encode (VDict []))) with 2. lia.
    + cbn [forallb] in Hp. apply andb_true_iff in Hp. destruct Hp as [Hkv Hitems].
      apply andb_true_iff in Hkv. destruct Hkv as [Hk Hv].
      inversion IH as [|? ? IHv IHitems]; subst.
      assert (Hall : Forall (fun kv => plain_text (fst kv) = true /\
                                       plain (snd kv) = true /\
                                       reads_back (snd kv)) items).
      { rewrite forallb_forall in Hitems. rewrite Forall_forall in IHitems.
        apply Forall_forall. intros kv' Hin. specialize (Hitems kv' Hin).
        apply andb_true_iff in Hitems. destruct Hitems. repeat split; auto. }
      assert (Hopen : skipn idx s =
                      ch "{" :: (join_with (str ", ") (map item_text (kv :: items))
                                   ++ ch "}" :: suf)).
      { rewrite Hcur. cbn [encode]. rewrite <- !app_assoc. reflexivity. }
      pose proof (@cursor_advance s idx [ch "{"] _ Hopen) as Hnext. cbn [length] in Hnext.
      destruct (@object_items_read_back items Hall kv Hk Hv (IHv Hv) s (idx + 1) []
                  suf Hu Hnext) as (n1 & Hn1).
      exists (S n1). intros fuel Hfuel. destruct fuel as [|fuel]; [lia|].
      cbn [scan_once]. rewrite Hopen.
      change (N.eqb (ch "{") QUOTE) with false.
      change (N.eqb (ch "{") (ch "{")) with true. cbv iota.
      assert (Hq : exists rest,
                 join_with (str ", ") (map item_text (kv :: items)) ++ ch "}" :: suf
                 = QUOTE :: rest).
      { cbn [map]. rewrite join_with_cons.
        destruct (map item_text items); unfold item_text at 1;
          rewrite encode_basestring_ascii_eq; eexists; reflexivity. }
      destruct Hq as (rest & Hq). rewrite Hq in Hnext.
      rewrite (@skip_whitespace_stays s _ _ _ Hnext eq_refl).
      rewrite char_is_cursor, Hnext.
      change (N.eqb QUOTE (ch "}")) with false. cbv iota.
      rewrite Hn1 by lia. cbn [app].
      apply f_equal. cbn [encode].
      change (map (fun kv0 => encode_basestring_ascii (fst kv0) ++ str ": "
                                ++ encode (snd kv0)) (kv :: items))
        with (map item_text (kv :: items)).
      rewrite !length_app.
      change (length (str "{")) with 1. change (length (str "}")) with 1. lia.
Qed.

Lemma scan_once_enough (s : pystr) (idx : nat) (v : value) (e n : nat) :
  (forall fuel, n <= fuel -> scan_once fuel s idx = Scanned v e) ->
  scan_once (enough_fuel s) s idx = Scanned v e.
Proof.
  intros H.
  destruct (scan_fuel s (enough_fuel s)) as (Hs & _).
  specialize (Hs idx ltac:(unfold enough_fuel; lia)).
  destruct (@scan_more_fuel s (enough_fuel s) (Nat.max n (enough_fuel s)) ltac:(lia))
    as (Hm & _).
  rewrite <- (Hm idx Hs). apply H. lia.
Qed.

Theorem loads_dumps (v : value) :
  plain v = true -> json_loads (VStr (json_dumps v)) = Return v.
Proof.
  intros Hp. unfold json_loads, json_dumps.
  destruct (encode_head v Hp) as (c & rest & Hhead & Hc).
  destruct (starts_value_facts _ Hc) as (Hws & _ & _ & Hbom).
  assert (Hcur : skipn 0 (encode v) = encode v ++ []) by (rewrite app_nil_r; reflexivity).
  destruct (@plain_reads_back v Hp _ _ _ Hcur eq_refl) as (n & Hn).
  apply scan_once_enough in Hn.
  replace (starts_with [65279%N] (encode v)) with false
    by (rewrite Hhead; cbn [starts_with]; rewrite N.eqb_sym, Hbom; reflexivity).
  unfold decode.
  assert (H0 : skip_whitespace (encode v) 0 = 0).
  { apply (@skip_whitespace_stays (encode v) 0 c rest); [exact Hhead | exact Hws]. }
  rewrite H0, Hn. cbn [Nat.add].
  unfold skip_whitespace. rewrite skipn_all. cbn [whitespace_len].
  rewrite Nat.add_0_r, Nat.eqb_refl. reflexivity.
Qed.

(** ** The texts of the errors *)

Ltac known_message :=
  unfold decode_messages; cbn [In];
  repeat first [left; reflexivity | right].

Lemma scanstring_from_message (n : nat) :
  forall (rest : pystr) (begin next : nat) (chunks msg : pystr) (pos : nat),
    length rest <= n ->
    scanstring_from begin rest next chunks = DecodeError msg pos ->
    In msg decode_messages.
Proof.
  induction n as [|n IH]; intros rest begin next chunks msg pos Hlen.
  - destruct rest; [|simpl in Hlen; lia].
    cbn [scanstring_from]. intros H; raised H. known_message.
  - destruct rest as [|c rest1].
    { cbn [scanstring_from]. intros H; raised H. known_message. }
    cbn [scanstring_from]. simpl in Hlen.
    repeat first
      [ match goal with
        | |- Scanned _ _ = _ -> _ => discriminate
        | |- DecodeError _ _ = _ -> _ =>
            let H := fresh in intros H; raised H; known_message
        | |- scanstring_from _ _ _ _ = _ -> _ => apply IH; simpl in *; lia
        end
      | break_goal; simpl in Hlen ].
Qed.

Lemma scanstring_message (s : pystr) (end_ : nat) (msg : pystr) (pos : nat) :
  scanstring s end_ = DecodeError msg pos -> In msg decode_messages.
Proof.
  unfold scanstring.
  apply scanstring_from_message with (n := length (skipn end_ s)). lia.
Qed.

Lemma scan_message (s : pystr) (fuel : nat) :
  (forall idx msg pos,
     scan_once fuel s idx = DecodeError msg pos -> In msg decode_messages) /\
  (forall idx acc msg pos,
     parse_object_items fuel s idx acc = DecodeError msg pos ->
     In msg decode_messages) /\
  (forall idx acc msg pos,
     parse_array_items fuel s idx acc = DecodeError msg pos ->
     In msg decode_messages).
Proof.
  induction fuel as [|fuel (IHs & IHo & IHa)].
  - repeat split; intros; discriminate.
  - repeat split.
    + intros idx msg pos. cbn [scan_once].
      destruct (skipn idx s) as [|c rest1] eqn:Hrest; [discriminate|].
      destruct (N.eqb c QUOTE).
      { destruct (scanstring s (idx + 1)) eqn:Hs; try discriminate.
        intros H; raised H. eapply scanstring_message; eassumption. }
      destruct (N.eqb c (ch "{")).
      { destruct (char_is s (skip_whitespace s (idx + 1)) (ch "}"));
          [discriminate | apply IHo]. }
      destruct (N.eqb c (ch "[")).
      { destruct (char_is s (skip_whitespace s (idx + 1)) (ch "]"));
          [discriminate | apply IHa]. }
      repeat (break_goal; [discriminate|]).
      pose proof (match_number_outcome (c :: rest1) idx) as Hn.
      destruct (match_number (c :: rest1) idx); try discriminate. contradiction.
    + intros idx acc msg pos. cbn [parse_object_items].
      destruct (negb (char_is s idx QUOTE)); [intros H; raised H; known_message|].
      destruct (scanstring s (idx + 1)) as [key next| | |] eqn:Hs; try discriminate.
      2:{ intros H; raised H. eapply scanstring_message; eassumption. }
      destruct (negb (char_is s (skip_whitespace s next) (ch ":")));
        [intros H; raised H; known_message|].
      destruct (scan_once fuel s (skip_whitespace s (skip_whitespace s next + 1)))
        as [val next'| | |] eqn:Hv; try discriminate.
      2:{ intros H; raised H. eapply IHs; eassumption. }
      destruct (char_is s (skip_whitespace s next') (ch "}")); [discriminate|].
      destruct (negb (char_is s (skip_whitespace s next') (ch ",")));
        [intros H; raised H; known_message|].
      apply IHo.
    + intros idx acc msg pos. cbn [parse_array_items].
      destruct (scan_once fuel s idx) as [val next| | |] eqn:Hv; try discriminate.
      2:{ intros H; raised H. eapply IHs; eassumption. }
      destruct (char_is s (skip_whitespace s next) (ch "]")); [discriminate|].
      destruct (negb (char_is s (skip_whitespace s next) (ch ",")));
        [intros H; raised H; known_message|].
      apply IHa.
Qed.

(** What [json.loads] raises on a [str]: one of the decoder's messages, at a
    position of the text. *)
Lemma json_loads_raises_message (text : pystr) (e : exn) :
  json_loads (VStr text) = Raise e ->
  exists (msg : pystr) (pos : nat),
    In msg decode_messages /\ e = JSONDecodeError_new msg text pos.
Proof.
  unfold json_loads.
  destruct (starts_with _ _).
  { intros H; raised H. eexists; eexists; split; [|reflexivity]. known_message. }
  unfold decode.
  destruct (scan_fuel text (enough_fuel text)) as (Hs & _).
  specialize (Hs (skip_whitespace text 0)).
  destruct (scan_once (enough_fuel text) text (skip_whitespace text 0)) eqn:Hscan.
  - destruct (Nat.eqb _ _); [discriminate|].
    intros H; raised H. eexists; eexists; split; [|reflexivity]. known_message.
  - intros H; raised H. eexists; eexists; split; [|reflexivity]. known_message.
  - intros H; raised H. eexists; eexists; split; [|reflexivity].
    destruct (scan_message text (enough_fuel text)) as (Hm & _).
    eapply Hm; eassumption.
  - exfalso. apply Hs; [unfold enough_fuel; lia | reflexivity].
Qed.

Lemma decode_messages_ascii (msg : pystr) : In msg decode_messages -> ascii_text msg.
Proof.
  unfold decode_messages. cbn [In].
  intros H; repeat (destruct H as [H|H]; [subst; apply ascii_text_check; reflexivity|]).
  contradiction.
Qed.

Lemma JSONDecodeError_new_ascii (msg doc : pystr) (pos : nat) :
  ascii_text msg -> ascii_text (exc_str (JSONDecodeError_new msg doc pos)).
Proof.
  intros Hm. unfold JSONDecodeError_new. destruct (line_and_column _ _ _).
  cbn [exc_str].
  repeat first
    [ apply ascii_text_app
    | exact Hm
    | apply int_repr_ascii
    | apply ascii_text_check; reflexivity ].
Qed.

Lemma class_name_ascii (c : pyclass) : ascii_text (class_name c).
Proof. destruct c; apply ascii_text_check; reflexivity. Qed.

Lemma json_loads_raises_ascii (raw : value) (e : exn) :
  json_loads raw = Raise e -> ascii_text (exc_str e).
Proof.
  destruct raw;
    try (unfold json_loads; intros H; raised H; cbn [exc_str];
         apply ascii_text_check; reflexivity).
  intros H. apply json_loads_raises_message in H.
  destruct H as (msg & pos & Hin & ->).
  apply JSONDecodeError_new_ascii, decode_messages_ascii, Hin.
Qed.

Lemma dot_get_raises_ascii (obj : value) (key : pystr) (default : value) (e : exn) :
  dot_get obj key default = Raise e -> ascii_text (exc_str e).
Proof.
  destruct obj; unfold dot_get; intros H; raised H; cbn [exc_str];
    apply ascii_text_check; reflexivity.
Qed.

(** Printable ASCII is plain: no surrogate is in it. *)
Lemma ascii_plain (s : pystr) : ascii_text s -> plain_text s = true.
Proof.
  induction 1 as [|c rest Hc _ IH]; [reflexivity|].
  cbn [plain_text]. rewrite IH.
  unfold printable in Hc. apply andb_true_iff in Hc. destruct Hc as [H1 H2].
  apply N.leb_le in H1. apply N.leb_le in H2.
  replace (is_code_point c) with true
    by (symmetry; unfold is_code_point; apply N.ltb_lt; lia).
  replace (is_high_surrogate c) with false
    by (symmetry; unfold is_high_surrogate; apply andb_false_iff; left;
        apply N.leb_gt; lia).
  reflexivity.
Qed.

Lemma failure_payload_plain (e : exn) :
  ascii_text (exc_str e) -> plain (failure_payload e) = true.
Proof.
  intros He. unfold failure_payload. cbn [plain forallb fst snd].
  rewrite (ascii_plain He), (ascii_plain (class_name_ascii (exc_type e))).
  reflexivity.
Qed.

Lemma success_payload_plain (user_id name : value) :
  plain user_id = true -> plain name = true ->
  plain (success_payload user_id name) = true.
Proof.
  intros Hi Hn. unfold success_payload. cbn [plain forallb fst snd].
  rewrite Hi, Hn. reflexivity.
Qed.

(** ** Bodies that are read back *)





(** X15.  The body of every response that is not a 200 decodes back, by
    [json.loads], to the payload it was written from: the fixed error object
    for 400, the failure payload of some exception for 500. *)
Theorem X15_error_bodies_read_back (C : Type) (context : C) (w : world)
    (event : value) (statusCode : Z) (body : pystr) :
  fst (lambda_handler event context w) = Return (response statusCode body) ->
  statusCode <> 200%Z ->
  (statusCode = 400%Z /\
   json_loads (VStr body) =
   Return (VDict [(str "error", VStr (qstr "Missing 'id' or 'name'"))])) \/
  (statusCode = 500%Z /\
   exists e : exn,
     json_loads (VStr body) =
     Return
       (VDict
          [(str "error", VStr (str "Internal server error"));
           (str "message", VStr (exc_str e));
           (str "type", VStr (class_name (exc_type e)))])).
Proof.
  intros H Hs. rewrite lambda_handler_outcome in H.
  assert (Hfail : forall e, ascii_text (exc_str e) ->
            Return (response 500 (json_dumps (failure_payload e)))
            = Return (response statusCode body) ->
            statusCode = 500%Z /\
            exists e' : exn,
              json_loads (VStr body) = Return (failure_payload e')).
  { intros e He Heq. apply response_inj in Heq. destruct Heq as [<- <-].
    split; [reflexivity|]. exists e.
    apply loads_dumps, failure_payload_plain, He. }
  destruct (dot_get event (str "body") (VStr (str "{}"))) as [raw|e] eqn:E1.
  2:{ right. apply (Hfail e); [eapply dot_get_raises_ascii; eassumption | exact H]. }
  destruct (json_loads raw) as [decoded|e] eqn:E2.
  2:{ right. apply (Hfail e); [eapply json_loads_raises_ascii; eassumption | exact H]. }
  destruct (dot_get decoded (str "id") VNone) as [user_id|e] eqn:E3.
  2:{ right. apply (Hfail e); [eapply dot_get_raises_ascii; eassumption | exact H]. }
  destruct (dot_get decoded (str "name") VNone) as [name|e] eqn:E4.
  2:{ right. apply (Hfail e); [eapply dot_get_raises_ascii; eassumption | exact H]. }
  destruct (negb (truthy user_id) || negb (truthy name)).
  - left. apply response_inj in H. destruct H as [<- <-].
    split; [reflexivity|]. vm_compute. reflexivity.
  - apply response_inj in H. destruct H as [<- _]. contradiction Hs. reflexivity.
Qed.

Lemma X15_error_bodies_read_back_witness :
  (500%Z = 400%Z /\
   json_loads
     (VStr (json_dumps
              (failure_payload
                 (mk_exn JSONDecodeError
                    (str "Expecting value: line 1 column 1 (char 0)"))))) =
   Return (VDict [(str "error", VStr (qstr "Missing 'id' or 'name'"))])) \/
  (500%Z = 500%Z /\
   exists e : exn,
     json_loads
       (VStr (json_dumps
                (failure_payload
                   (mk_exn JSONDecodeError
                      (str "Expecting value: line 1 column 1 (char 0)"))))) =
     Return
       (VDict
          [(str "error", VStr (str "Internal server error"));
           (str "message", VStr (exc_str e));
           (str "type", VStr (class_name (exc_type e)))])).
Proof.
  apply (@X15_error_bodies_read_back unit tt fresh_process scenario_D 500
           (json_dumps
              (failure_payload
                 (mk_exn JSONDecodeError
                    (str "Expecting value: line 1 column 1 (char 0)"))))).
  - vm_compute; reflexivity.
  - lia.
Defined.



(** ** The decoder keeps one entry for a key *)

Lemma str_eqb_eq (a b : pystr) : str_eqb a b = true <-> a = b.
Proof.
  revert b. induction a as [|x a IH]; intros [|y b]; cbn [str_eqb];
    try (split; [discriminate | discriminate]); [tauto|].
  rewrite andb_true_iff, N.eqb_eq, IH. split.
  - intros [-> ->]. reflexivity.
  - intros H. inversion H. auto.
Qed.

Lemma key_in_dict_set (d : dict) (k a : pystr) (v : value) :
  key_in a (dict_set d k v) = key_in a d || str_eqb k a.
Proof.
  unfold key_in. induction d as [|[k' v'] d IH]; cbn [dict_set existsb fst].
  - apply orb_false_r.
  - destruct (str_eqb k' k) eqn:Hk; cbn [existsb fst].
    + apply str_eqb_eq in Hk. subst k'.
      destruct (str_eqb k a); [reflexivity|]. rewrite orb_false_r. reflexivity.
    + rewrite IH. rewrite orb_assoc. reflexivity.
Qed.

Lemma dict_set_unique (d : dict) (k : pystr) (v : value) :
  unique_keys d = true -> unique_keys (dict_set d k v) = true.
Proof.
  induction d as [|[k' v'] d IH]; intros Hu; [reflexivity|].
  cbn [unique_keys] in Hu. apply andb_true_iff in Hu. destruct Hu as [Hk Hu].
  cbn [dict_set]. destruct (str_eqb k' k) eqn:Hkk; cbn [unique_keys].
  - rewrite Hk, Hu. reflexivity.
  - rewrite key_in_dict_set, (IH Hu). apply negb_true_iff in Hk.
    rewrite Hk, str_eqb_sym, Hkk. reflexivity.
Qed.

Lemma dict_set_values (P : value -> bool) (d : dict) (k : pystr) (v : value) :
  forallb (fun kv => P (snd kv)) d = true -> P v = true ->
  forallb (fun kv => P (snd kv)) (dict_set d k v) = true.
Proof.
  intros Hd Hv. induction d as [|[k' v'] d IH]; cbn [dict_set forallb snd].
  - rewrite Hv. reflexivity.
  - cbn [forallb snd] in Hd. apply andb_true_iff in Hd. destruct Hd as [H1 H2].
    destruct (str_eqb k' k); cbn [forallb snd].
    + rewrite Hv, H2. reflexivity.
    + rewrite H1, (IH H2). reflexivity.
Qed.

Lemma match_number_flat (rest : pystr) (start : nat) (v : value) (e : nat) :
  match_number rest start = Scanned v e -> no_repeated_key v = true.
Proof.
  unfold match_number.
  repeat first
    [ discriminate
    | match goal with
      | |- Scanned _ _ = Scanned _ _ -> _ =>
          let H := fresh in intros H; raised H; reflexivity
      | |- StopIteration _ = _ -> _ => discriminate
      end
    | break_goal ].
Qed.

Lemma scan_no_repeated_key (s : pystr) (fuel : nat) :
  (forall idx v e,
     scan_once fuel s idx = Scanned v e -> no_repeated_key v = true) /\
  (forall idx acc v e,
     parse_object_items fuel s idx acc = Scanned v e ->
     no_repeated_key (VDict acc) = true -> no_repeated_key v = true) /\
  (forall idx acc v e,
     parse_array_items fuel s idx acc = Scanned v e ->
     no_repeated_key (VList acc) = true -> no_repeated_key v = true).
Proof.
  induction fuel as [|fuel (IHs & IHo & IHa)].
  - repeat split; intros; discriminate.
  - repeat split.
    + intros idx v e. cbn [scan_once].
      destruct (skipn idx s) as [|c rest1] eqn:Hrest; [discriminate|].
      destruct (N.eqb c QUOTE).
      { destruct (scanstring s (idx + 1)); try discriminate.
        intros H; raised H. reflexivity. }
      destruct (N.eqb c (ch "{")).
      { destruct (char_is s (skip_whitespace s (idx + 1)) (ch "}")).
        - intros H; raised H. reflexivity.
        - intros H. apply IHo in H; [exact H | reflexivity]. }
      destruct (N.eqb c (ch "[")).
      { destruct (char_is s (skip_whitespace s (idx + 1)) (ch "]")).
        - intros H; raised H. reflexivity.
        - intros H. apply IHa in H; [exact H | reflexivity]. }
      repeat (break_goal; [intros H; raised H; reflexivity|]).
      apply match_number_flat.
    + intros idx acc v e. cbn [parse_object_items].
      destruct (negb (char_is s idx QUOTE)); [discriminate|].
      destruct (scanstring s (idx + 1)) as [key next| | |]; try discriminate.
      destruct (negb (char_is s (skip_whitespace s next) (ch ":")));
        [discriminate|].
      destruct (scan_once fuel s (skip_whitespace s (skip_whitespace s next + 1)))
        as [val next'| | |] eqn:Hv; try discriminate.
      apply IHs in Hv.
      assert (Hacc : no_repeated_key (VDict acc) = true ->
                     no_repeated_key (VDict (dict_set acc key val)) = true).
      { cbn [no_repeated_key]. intros H. apply andb_true_iff in H.
        destruct H as [H1 H2]. apply andb_true_iff. split.
        - apply dict_set_unique, H1.
        - apply dict_set_values; assumption. }
      destruct (char_is s (skip_whitespace s next') (ch "}")).
      { intros H Ha; raised H. apply Hacc, Ha. }
      destruct (negb (char_is s (skip_whitespace s next') (ch ",")));
        [discriminate|].
      intros H Ha. apply IHo in H; [exact H | apply Hacc, Ha].
    + intros idx acc v e. cbn [parse_array_items].
      destruct (scan_once fuel s idx) as [val next| | |] eqn:Hv; try discriminate.
      apply IHs in Hv.
      assert (Hacc : no_repeated_key (VList acc) = true ->
                     no_repeated_key (VList (acc ++ [val])) = true).
      { cbn [no_repeated_key]. intros H. rewrite forallb_app, H.
        cbn [forallb]. rewrite Hv. reflexivity. }
      destruct (char_is s (skip_whitespace s next) (ch "]")).
      { intros H Ha; raised H. apply Hacc, Ha. }
      destruct (negb (char_is s (skip_whitespace s next) (ch ",")));
        [discriminate|].
      intros H Ha. apply IHa in H; [exact H | apply Hacc, Ha].
Qed.

Lemma json_loads_no_repeated_key (raw v : value) :
  json_loads raw = Return v -> no_repeated_key v = true.
Proof.
  destruct raw; try discriminate. unfold json_loads.
  destruct (starts_with _ _); [discriminate|]. unfold decode.
  destruct (scan_once (enough_fuel s) s (skip_whitespace s 0)) eqn:Hscan;
    try discriminate.
  destruct (Nat.eqb _ _); [|discriminate].
  intros H; raised H.
  destruct (scan_no_repeated_key s (enough_fuel s)) as (Hs & _).
  eapply Hs; eassumption.
Qed.

Lemma dict_lookup_value (P : value -> bool) (d : dict) (k : pystr) (v : value) :
  forallb (fun kv => P (snd kv)) d = true -> dict_lookup d k = Some v -> P v = true.
Proof.
  induction d as [|[k' v'] d IH]; cbn [dict_lookup forallb snd]; [discriminate|].
  intros H. apply andb_true_iff in H. destruct H as [H1 H2].
  destruct (str_eqb k' k); [intros E; inversion E; subst; exact H1 | apply IH, H2].
Qed.

(** X17.  [json.loads] keeps one entry for a key: the [id] and [name] that a
    200 response echoes hold no mapping with a repeated key, at any depth. *)
Theorem X17_echoed_fields_repeat_no_key (C : Type) (context : C) (w : world)
    (event : value) (body : pystr) :
  fst (lambda_handler event context w) = Return (response 200 body) ->
  exists user_id name : value,
    body = json_dumps (success_payload user_id name) /\
    no_repeated_key user_id = true /\ no_repeated_key name = true.
Proof.
  intros H. rewrite lambda_handler_outcome in H.
  destruct (dot_get event (str "body") (VStr (str "{}"))) as [raw|e];
    [|apply response_inj in H; destruct H; discriminate].
  destruct (json_loads raw) as [decoded|e] eqn:Hl;
    [|apply response_inj in H; destruct H; discriminate].
  apply json_loads_no_repeated_key in Hl.
  assert (Hget : forall k v, dot_get decoded k VNone = Return v ->
                 no_repeated_key v = true).
  { intros k v. destruct decoded as [| | | | | |d]; try discriminate.
    unfold dot_get, dict_get.
    cbn [no_repeated_key] in Hl. apply andb_true_iff in Hl. destruct Hl as [_ Hl].
    destruct (dict_lookup d k) as [v'|] eqn:Hk; intros E; inversion E; subst.
    - exact (dict_lookup_value no_repeated_key d k Hl Hk).
    - reflexivity. }
  destruct (dot_get decoded (str "id") VNone) as [user_id|e] eqn:Hi;
    [|apply response_inj in H; destruct H; discriminate].
  destruct (dot_get decoded (str "name") VNone) as [name|e] eqn:Hn;
    [|apply response_inj in H; destruct H; discriminate].
  destruct (negb (truthy user_id) || negb (truthy name));
    apply response_inj in H; destruct H as [Hst Hb]; [discriminate|].
  exists user_id, name. repeat split; eauto.
Qed.

Lemma X17_echoed_fields_repeat_no_key_witness :
  exists user_id name : value,
    json_dumps (success_payload (VInt 2) (VStr (str "x")))
    = json_dumps (success_payload user_id name) /\
    no_repeated_key user_id = true /\ no_repeated_key name = true.
Proof.
  apply (@X17_echoed_fields_repeat_no_key unit tt fresh_process repeated_id
           (json_dumps (success_payload (VInt 2) (VStr (str "x"))))).
  vm_compute; reflexivity.
Defined.

(** ** The body tells the user *)

(** X18.  The success body determines the user: two success payloads with the
    same serialization have the same [id] and the same [name], for values
    with no finite float other than zero, no surrogate pair and no repeated
    key. *)
Theorem X18_success_body_determines_user (user_id name user_id' name' : value) :
  plain user_id = true -> plain name = true ->
  plain user_id' = true -> plain name' = true ->
  json_dumps (success_payload user_id name)
  = json_dumps (success_payload user_id' name') ->
  user_id = user_id' /\ name = name'.
Proof.
  intros Pi Pn Pi' Pn' H.
  pose proof (loads_dumps _ (success_payload_plain _ _ Pi Pn)) as H1.
  pose proof (loads_dumps _ (success_payload_plain _ _ Pi' Pn')) as H2.
  rewrite H, H2 in H1. inversion H1. split; reflexivity.
Qed.

Lemma X18_success_body_determines_user_witness :
  VInt 7 = VInt 7 /\ VStr (str "Ann") = VStr (str "Ann").
Proof.
  apply (@X18_success_body_determines_user (VInt 7) (VStr (str "Ann"))
           (VInt 7) (VStr (str "Ann"))); reflexivity.
Defined.
